(** * Quote normalisation layer of the paper-trading client

    A shallow embedding of the browser-side data layer
    (the script embedded in [papertrading/README.md]: [fetchStockData],
    [fetchBatchStocks], [fetchIndices]; and the batch call of the
    backend client [api_config.js]) together with the properties claimed
    for it.

    Modelling conventions.
    - A JavaScript value that may be missing is a [js A]: [undefined]
      (absent property), [null], or a value of the expected type.
    - Numbers are exact rationals extended with [NaN] and the two
      infinities; the binary rounding of IEEE doubles and the sign of
      zero are not represented.
    - A plain object used as a dictionary is a [gmap string _] over
      ordinary property names; property assignment is [insert].
    - [try { ... } catch] blocks are written in an exception monad
      ([completion]); the handler turns every [Throw] into the sentinel
      the source returns.
    - The network is a function from the position of a request in its
      batch and the requested symbol to what [fetch] delivered. *)

From Stdlib Require Import ZArith QArith Qcanon Qround Qabs Lqa.
From stdpp Require Import base option list strings gmap pretty.

Local Open Scope Z_scope.

(** ** Values that may be missing *)

Inductive js (A : Type) : Type :=
  | undefined
  | null
  | val (a : A).
Arguments undefined {A}.
Arguments null {A}.
Arguments val {A} a.

(** ** Exceptions and completions *)

Inductive exn : Type :=
  | TypeError
  | SyntaxError
  | Error (message : string).

Inductive completion (A : Type) : Type :=
  | Normal (a : A)
  | Throw (e : exn).
Arguments Normal {A} a.
Arguments Throw {A} e.

Global Instance completion_ret : MRet completion := fun A a => Normal a.
Global Instance completion_bind : MBind completion := fun A B f m =>
  match m with
  | Normal a => f a
  | Throw e => Throw e
  end.

(** Reading a property of (or calling a method on) [o]: a TypeError when
    [o] is [undefined] or [null]. *)
Definition deref {A} (o : js A) : completion A :=
  match o with
  | val a => Normal a
  | _ => Throw TypeError
  end.

(** [arr[i]]: [undefined] outside the array. *)
Definition js_index {A} (arr : list (js A)) (i : Z) : js A :=
  if i <? 0 then undefined else default undefined (arr !! Z.to_nat i).

(** ** Numbers *)

Inductive number : Type :=
  | Fin (q : Qc)
  | NaN
  | PosInf
  | NegInf.

Definition Qc_sgn (q : Qc) : Z := Z.sgn (Qnum q).

Definition Qc_eqb (p q : Qc) : bool :=
  match (p ?= q)%Qc with Eq => true | _ => false end.

Definition Qc_ltb (p q : Qc) : bool :=
  match (p ?= q)%Qc with Lt => true | _ => false end.

Definition number_neg (x : number) : number :=
  match x with
  | Fin q => Fin (- q)%Qc
  | NaN => NaN
  | PosInf => NegInf
  | NegInf => PosInf
  end.

(** [x + y] *)
Definition js_add (x y : number) : number :=
  match x, y with
  | NaN, _ | _, NaN => NaN
  | Fin p, Fin q => Fin (p + q)%Qc
  | PosInf, NegInf | NegInf, PosInf => NaN
  | PosInf, _ | _, PosInf => PosInf
  | NegInf, _ | _, NegInf => NegInf
  end.

(** [x - y] *)
Definition js_sub (x y : number) : number := js_add x (number_neg y).

(** The sign of a number that is not [NaN]: -1, 0 or 1. *)
Definition number_sgn (x : number) : Z :=
  match x with
  | Fin q => Qc_sgn q
  | PosInf => 1
  | NegInf => -1
  | NaN => 0
  end.

Definition signed_inf (s : Z) : number :=
  if s <? 0 then NegInf else PosInf.

(** [x * y] *)
Definition js_mul (x y : number) : number :=
  match x, y with
  | NaN, _ | _, NaN => NaN
  | Fin p, Fin q => Fin (p * q)%Qc
  | _, _ =>
      if number_sgn x * number_sgn y =? 0 then NaN
      else signed_inf (number_sgn x * number_sgn y)
  end.

(** [x / y] *)
Definition js_div (x y : number) : number :=
  match x, y with
  | NaN, _ | _, NaN => NaN
  | Fin p, Fin q =>
      if Qc_eqb q 0 then
        if Qc_eqb p 0 then NaN else signed_inf (Qc_sgn p)
      else Fin (p / q)%Qc
  | Fin _, _ => Fin 0
  | _, Fin q => signed_inf (number_sgn x * (if Qc_eqb q 0 then 1 else Qc_sgn q))
  | _, _ => NaN
  end.

(** The nearest multiple of [10^-digits], ties going away from zero. *)
Definition round_half_away (digits : nat) (q : Qc) : Qc :=
  let scale := 10 ^ Z.of_nat digits in
  let n := Qfloor (Qabs q * inject_Z scale + (1 # 2)) in
  Q2Qc (inject_Z (Qc_sgn q * n) / inject_Z scale).

(** [parseFloat(x.toFixed(digits))]: the number denoted by the string
    that [toFixed] prints.  From [10^21] on, and for values that are not
    finite, [toFixed] prints the number itself. *)
Definition toFixed (digits : nat) (x : number) : number :=
  match x with
  | Fin q =>
      if Qc_ltb (Q2Qc (Qabs q)) (Q2Qc (inject_Z (10 ^ 21))) then
        Fin (round_half_away digits q)
      else Fin q
  | _ => x
  end.

(** ** Truthiness and [||] *)

Class Truthy (A : Type) := truthy : A -> bool.

Global Instance Qc_truthy : Truthy Qc := fun q => negb (Qc_eqb q 0).
Global Instance string_truthy : Truthy string := fun s =>
  match s with EmptyString => false | _ => true end.
Global Instance number_truthy : Truthy number := fun x =>
  match x with
  | Fin q => truthy q
  | NaN => false
  | _ => true
  end.
(** Arrays and objects are always truthy. *)
Global Instance list_truthy {A} : Truthy (list A) := fun _ => true.
Global Instance object_truthy {A} : Truthy (gmap string A) := fun _ => true.
Global Instance js_truthy {A} `{Truthy A} : Truthy (js A) := fun o =>
  match o with
  | val a => truthy a
  | _ => false
  end.

(** [a || d] where [d] is a value of the expected type. *)
Definition or_else {A} `{Truthy A} (a : js A) (d : A) : A :=
  match a with
  | val x => if truthy x then x else d
  | _ => d
  end.

(** [a || b] where both sides may be missing. *)
Definition js_or {A} `{Truthy A} (a b : js A) : js A :=
  if truthy a then a else b.

(** ToNumber on a value that is a number when present. *)
Definition ToNumber (v : js Qc) : number :=
  match v with
  | undefined => NaN
  | null => Fin 0
  | val q => Fin q
  end.

Definition dec (n : Z) (d : positive) : Qc := Q2Qc (n # d).

(** [a || d] where [a] is a number. *)
Definition number_or (a d : number) : number :=
  if truthy a then a else d.

(** ** [Math.max], [Math.min] *)

Definition is_NaN (x : number) : bool :=
  match x with NaN => true | _ => false end.

(** [x < y] for numbers ([false] as soon as one side is [NaN]). *)
Definition number_ltb (x y : number) : bool :=
  match x, y with
  | Fin p, Fin q => Qc_ltb p q
  | NegInf, Fin _ | NegInf, PosInf | Fin _, PosInf => true
  | _, _ => false
  end.

Definition Math_max (args : list number) : number :=
  if existsb is_NaN args then NaN
  else foldl (fun highest x => if number_ltb highest x then x else highest)
         NegInf args.

Definition Math_min (args : list number) : number :=
  if existsb is_NaN args then NaN
  else foldl (fun lowest x => if number_ltb x lowest then x else lowest)
         PosInf args.

(** The predicate of [filter(v => v !== null)]. *)
Definition not_null {A} (v : js A) : bool :=
  match v with null => false | _ => true end.

(** ** The upstream chart payload

    Every property may be absent or [null]; a property that is present
    has the type the provider documents for it. *)

Module Upstream.

Record Meta : Type := {
  regularMarketPrice : js Qc;
  previousClose : js Qc;
  chartPreviousClose : js Qc;
  longName : js string;
  shortName : js string;
  exchangeName : js string;
  exchange : js string
}.

Record Series : Type := {
  close : js (list (js Qc));
  high : js (list (js Qc));
  low : js (list (js Qc));
  volume : js (list (js Qc))
}.

Record Indicators : Type := { quote : js (list (js Series)) }.

Record Result : Type := {
  meta : js Meta;
  indicators : js Indicators
}.

Record Chart : Type := { result : js (list (js Result)) }.

Record Body : Type := { chart : js Chart }.

End Upstream.

(** What [await fetch(url)] delivers.  [json = None]: the body is not
    JSON, so [response.json()] rejects. *)
Record Response : Type := {
  ok : bool;
  status : N;
  json : option (js Upstream.Body)
}.

(** [None]: [fetch] itself rejected (network error). *)
Definition Fetched : Type := option Response.

(** The network, per request: position in the batch and symbol. *)
Definition Network : Type := nat -> string -> Fetched.

(** ** The normalised record *)

Module Quote.
Record t : Type := {
  symbol : string;
  name : string;
  ltp : number;
  change : number;
  percent : number;
  exchange : string;
  previousClose : number;
  high : number;
  low : number;
  volume : number
}.
End Quote.

(** ** [fetchStockData] *)

(** The body of the [try] block. *)
Definition fetchStockData_try (fetched : Fetched) (symbol : string)
  : completion Quote.t :=
  response ← match fetched with
             | Some r => Normal r
             | None => Throw TypeError
             end;
  if negb (ok response) then
    Throw (Error ("Failed to fetch " +:+ symbol +:+ ": "
                    +:+ pretty (status response)))
  else
  data ← match json response with
         | Some d => Normal d
         | None => Throw SyntaxError
         end;
  body ← deref data;
  chart ← deref (Upstream.chart body);
  results ← deref (Upstream.result chart);
  let result := js_index results 0 in
  match result with
  | undefined | null => Throw (Error "No data available for this symbol")
  | val result =>
  let meta := Upstream.meta result in
  indicators ← deref (Upstream.indicators result);
  quotes ← deref (Upstream.quote indicators);
  let quote := js_index quotes 0 in
  meta ← deref meta;
  currentPrice ←
    (if truthy (Upstream.regularMarketPrice meta)
     then Normal (Upstream.regularMarketPrice meta)
     else
       series ← deref quote;
       close ← deref (Upstream.close series);
       Normal (js_index close (Z.of_nat (length close) - 1)));
  let previousClose :=
    js_or (Upstream.previousClose meta) (Upstream.chartPreviousClose meta) in
  let change := js_sub (ToNumber currentPrice) (ToNumber previousClose) in
  let percentChange :=
    js_mul (js_div change (ToNumber previousClose)) (Fin (Qc_of_Z 100)) in
  let name :=
    or_else (js_or (Upstream.longName meta) (Upstream.shortName meta)) symbol in
  price ← deref currentPrice;
  let exchange :=
    or_else (js_or (Upstream.exchangeName meta) (Upstream.exchange meta))
      "Unknown" in
  prev ← deref previousClose;
  series ← deref quote;
  let high :=
    match Upstream.high series with
    | val samples => Math_max (ToNumber <$> List.filter not_null samples)
    | _ => Fin price
    end in
  let low :=
    match Upstream.low series with
    | val samples => Math_min (ToNumber <$> List.filter not_null samples)
    | _ => Fin price
    end in
  let volume :=
    match Upstream.volume series with
    | val samples =>
        foldl (fun a b => js_add (number_or a (Fin 0)) (Fin (or_else b 0%Qc)))
          (Fin 0) samples
    | _ => Fin 0
    end in
  Normal {|
    Quote.symbol := symbol;
    Quote.name := name;
    Quote.ltp := toFixed 2 (Fin price);
    Quote.change := toFixed 2 change;
    Quote.percent := toFixed 2 percentChange;
    Quote.exchange := exchange;
    Quote.previousClose := toFixed 2 (Fin prev);
    Quote.high := high;
    Quote.low := low;
    Quote.volume := volume
  |}
  end.

(** The whole function: the [catch] handler logs the exception and
    returns [null], here [None]. *)
Definition fetchStockData (fetched : Fetched) (symbol : string)
  : option Quote.t :=
  match fetchStockData_try fetched symbol with
  | Normal q => Some q
  | Throw _ => None
  end.

(** ** [fetchBatchStocks] *)

(** An entry of the object the batch returns: the record of the symbol,
    or the marker [{ error: ... }]. *)
Inductive BatchEntry : Type :=
  | Stock (q : Quote.t)
  | Failed (error : string).

(** [arr.forEach((x, index) => ...)], the callback acting on a state. *)
Fixpoint forEach_from {A St : Type} (f : St -> A -> nat -> St)
    (index : nat) (arr : list A) (st : St) : St :=
  match arr with
  | [] => st
  | x :: rest => forEach_from f (S index) rest (f st x index)
  end.

Definition forEach {A St : Type} (f : St -> A -> nat -> St)
    (arr : list A) (st : St) : St :=
  forEach_from f 0 arr st.

(** The callback of [symbols.forEach] in [fetchBatchStocks]. *)
Definition store_result (results : list (option Quote.t))
    (stocksObject : gmap string BatchEntry) (symbol : string) (index : nat)
  : gmap string BatchEntry :=
  match results !! index with
  | Some (Some r) => <[symbol := Stock r]> stocksObject
  | _ => <[symbol := Failed "Failed to fetch"]> stocksObject
  end.

(** The body of the [try] block.  [symbols.map] is a TypeError when
    [symbols] is [undefined] or [null]. *)
Definition fetchBatchStocks_try (net : Network) (symbols : js (list string))
  : completion (gmap string BatchEntry) :=
  array ← deref symbols;
  let results :=
    imap (fun index symbol => fetchStockData (net index symbol) symbol) array in
  Normal (forEach (store_result results) array ∅).

(** The whole function: the [catch] handler returns the empty object. *)
Definition fetchBatchStocks (net : Network) (symbols : js (list string))
  : gmap string BatchEntry :=
  match fetchBatchStocks_try net symbols with
  | Normal stocksObject => stocksObject
  | Throw _ => ∅
  end.

(** ** The backend client ([api_config.js])

    The variant of [fetchBatchStocks] that posts the list to the
    [/api/stocks/batch] endpoint of a backend and hands back the
    [stocks] object of the reply. *)

Module Backend.

Record Body : Type := { stocks : js (gmap string BatchEntry) }.

Record Response : Type := {
  ok : bool;
  status : N;
  json : option (js Body)
}.

(** The body of the [try] block; [JSON.stringify({ symbols })] accepts
    any list of strings as well as [undefined] and [null]. *)
Definition fetchBatchStocks_try (fetched : option Response)
    (symbols : js (list string)) : completion (gmap string BatchEntry) :=
  response ← match fetched with
             | Some r => Normal r
             | None => Throw TypeError
             end;
  if negb (ok response) then
    Throw (Error ("Batch fetch failed: " +:+ pretty (status response)))
  else
  data ← match json response with
         | Some d => Normal d
         | None => Throw SyntaxError
         end;
  body ← deref data;
  Normal (or_else (stocks body) ∅).

Definition fetchBatchStocks (fetched : option Response)
    (symbols : js (list string)) : gmap string BatchEntry :=
  match fetchBatchStocks_try fetched symbols with
  | Normal stocksObject => stocksObject
  | Throw _ => ∅
  end.

End Backend.

(** ** [fetchIndices] *)

Module Index.
Record t : Type := { symbol : string; name : string }.
End Index.

Module IndexSnapshot.
Record t : Type := {
  name : string;
  price : number;
  change : number;
  percent : number
}.
End IndexSnapshot.

Definition indices : list Index.t :=
  [ {| Index.symbol := "^NSEI"; Index.name := "NIFTY 50" |};
    {| Index.symbol := "^NSEBANK"; Index.name := "NIFTY BANK" |};
    {| Index.symbol := "^BSESN"; Index.name := "SENSEX" |} ].

(** The callback of [indices.map]: a snapshot, or [null] (here [None]). *)
Definition index_snapshot (net : Network) (position : nat) (index : Index.t)
  : option IndexSnapshot.t :=
  match fetchStockData (net position (Index.symbol index)) (Index.symbol index) with
  | Some data =>
      Some {| IndexSnapshot.name := Index.name index;
              IndexSnapshot.price := Quote.ltp data;
              IndexSnapshot.change := Quote.change data;
              IndexSnapshot.percent := Quote.percent data |}
  | None => None
  end.

(** [results.filter(r => r !== null)] is [omap id]. *)
Definition fetchIndices (net : Network) : list IndexSnapshot.t :=
  let results := imap (index_snapshot net) indices in
  omap id results.

(** ** [searchStocksAPI] *)

(** The reply of the provider's search endpoint. *)
Module YahooSearch.

Record Quote : Type := {
  symbol : js string;
  longname : js string;
  shortname : js string;
  exchange : js string;
  exchDisp : js string;
  quoteType : js string;
  currency : js string
}.

Record Body : Type := { quotes : js (list (js Quote)) }.

Record Response : Type := {
  ok : bool;
  status : N;
  json : option (js Body)
}.

End YahooSearch.

(** A formatted search result. *)
Module SearchResult.
Record t : Type := {
  symbol : js string;
  name : js string;
  exchange : string;
  type : string;
  currency : string
}.
End SearchResult.

(** [arr.map(f)] for a callback that may raise: the first exception
    ends the traversal. *)
Fixpoint map_completion {A B : Type} (f : A -> completion B) (arr : list A)
  : completion (list B) :=
  match arr with
  | [] => Normal []
  | x :: rest =>
      y ← f x;
      ys ← map_completion f rest;
      Normal (y :: ys)
  end.

(** The callback of [quotes.map] in [searchStocksAPI]. *)
Definition format_quote (quote : js YahooSearch.Quote)
  : completion SearchResult.t :=
  q ← deref quote;
  Normal {|
    SearchResult.symbol := YahooSearch.symbol q;
    SearchResult.name :=
      js_or (js_or (YahooSearch.longname q) (YahooSearch.shortname q))
        (YahooSearch.symbol q);
    SearchResult.exchange :=
      or_else (js_or (YahooSearch.exchange q) (YahooSearch.exchDisp q))
        "Unknown";
    SearchResult.type := or_else (YahooSearch.quoteType q) "EQUITY";
    SearchResult.currency := or_else (YahooSearch.currency q) "USD"
  |}.

(** The body of the [try] block.  The query only enters the URL. *)
Definition searchStocksAPI_try (fetched : option YahooSearch.Response)
    (query : string) : completion (list SearchResult.t) :=
  response ← match fetched with
             | Some r => Normal r
             | None => Throw TypeError
             end;
  if negb (YahooSearch.ok response) then
    Throw (Error ("Search failed: " +:+ pretty (YahooSearch.status response)))
  else
  data ← match YahooSearch.json response with
         | Some d => Normal d
         | None => Throw SyntaxError
         end;
  body ← deref data;
  let quotes := or_else (YahooSearch.quotes body) [] in
  map_completion format_quote quotes.

(** The whole function: the [catch] handler returns the empty array. *)
Definition searchStocksAPI (fetched : option YahooSearch.Response)
    (query : string) : list SearchResult.t :=
  match searchStocksAPI_try fetched query with
  | Normal results => results
  | Throw _ => []
  end.

(** ** The other calls of the backend client ([api_config.js]) *)

(** The record of one stock as the backend serves it and as its client
    [fetchStockData] hands it on. *)
Module BackendStock.
Record t : Type := {
  symbol : js string;
  name : js string;
  ltp : js Qc;
  change : js Qc;
  percent : js Qc;
  exchange : js string;
  previousClose : js Qc;
  high : js Qc;
  low : js Qc;
  volume : js Qc
}.
End BackendStock.

Module BackendApi.

(** A reply of the backend whose JSON body has type [B]. *)
Record Reply (B : Type) : Type := {
  ok : bool;
  status : N;
  json : option (js B)
}.
Arguments ok {B} _.
Arguments status {B} _.
Arguments json {B} _.

(** The search and index replies; the entries are handed on as they
    are, so their type [Item] is left open. *)
Record SearchBody (Item : Type) : Type := { results : js (list Item) }.
Arguments results {Item} _.

Record IndicesBody (Item : Type) : Type := { indices : js (list Item) }.
Arguments indices {Item} _.

Definition searchStocksAPI_try {Item} (fetched : option (Reply (SearchBody Item)))
    (query : string) : completion (list Item) :=
  response ← match fetched with
             | Some r => Normal r
             | None => Throw TypeError
             end;
  if negb (ok response) then
    Throw (Error ("Search failed: " +:+ pretty (status response)))
  else
  data ← match json response with
         | Some d => Normal d
         | None => Throw SyntaxError
         end;
  body ← deref data;
  Normal (or_else (results body) []).

Definition searchStocksAPI {Item} (fetched : option (Reply (SearchBody Item)))
    (query : string) : list Item :=
  match searchStocksAPI_try fetched query with
  | Normal found => found
  | Throw _ => []
  end.

Definition fetchStockData_try (fetched : option (Reply BackendStock.t))
    (symbol : string) : completion BackendStock.t :=
  response ← match fetched with
             | Some r => Normal r
             | None => Throw TypeError
             end;
  if negb (ok response) then
    Throw (Error ("Failed to fetch " +:+ symbol +:+ ": " +:+ pretty (status response)))
  else
  data ← match json response with
         | Some d => Normal d
         | None => Throw SyntaxError
         end;
  body ← deref data;
  Normal {|
    BackendStock.symbol := BackendStock.symbol body;
    BackendStock.name := BackendStock.name body;
    BackendStock.ltp := BackendStock.ltp body;
    BackendStock.change := BackendStock.change body;
    BackendStock.percent := BackendStock.percent body;
    BackendStock.exchange := BackendStock.exchange body;
    BackendStock.previousClose := BackendStock.previousClose body;
    BackendStock.high := BackendStock.high body;
    BackendStock.low := BackendStock.low body;
    BackendStock.volume := BackendStock.volume body
  |}.

Definition fetchStockData (fetched : option (Reply BackendStock.t))
    (symbol : string) : option BackendStock.t :=
  match fetchStockData_try fetched symbol with
  | Normal stock => Some stock
  | Throw _ => None
  end.

Definition fetchIndices_try {Item} (fetched : option (Reply (IndicesBody Item)))
  : completion (list Item) :=
  response ← match fetched with
             | Some r => Normal r
             | None => Throw TypeError
             end;
  if negb (ok response) then
    Throw (Error ("Failed to fetch indices: " +:+ pretty (status response)))
  else
  data ← match json response with
         | Some d => Normal d
         | None => Throw SyntaxError
         end;
  body ← deref data;
  Normal (or_else (indices body) []).

Definition fetchIndices {Item} (fetched : option (Reply (IndicesBody Item)))
  : list Item :=
  match fetchIndices_try fetched with
  | Normal found => found
  | Throw _ => []
  end.

End BackendApi.

(** ** Sample payloads *)

Definition no_meta : Upstream.Meta := {|
  Upstream.regularMarketPrice := undefined;
  Upstream.previousClose := undefined;
  Upstream.chartPreviousClose := undefined;
  Upstream.longName := undefined;
  Upstream.shortName := undefined;
  Upstream.exchangeName := undefined;
  Upstream.exchange := undefined
|}.

Definition no_series : Upstream.Series := {|
  Upstream.close := undefined;
  Upstream.high := undefined;
  Upstream.low := undefined;
  Upstream.volume := undefined
|}.

(** A successful response whose first result entry has the given
    metadata and the given first quote series. *)
Definition chart_response (meta : js Upstream.Meta) (series : js Upstream.Series)
  : Response := {|
  ok := true;
  status := 200%N;
  json := Some (val {| Upstream.chart := val {| Upstream.result := val [
    val {| Upstream.meta := meta;
           Upstream.indicators :=
             val {| Upstream.quote := val [series] |} |} ] |} |})
|}.

(** Metadata carrying only a price and a previous close. *)
Definition sample_meta (price prev : Qc) : Upstream.Meta := {|
  Upstream.regularMarketPrice := val price;
  Upstream.previousClose := val prev;
  Upstream.chartPreviousClose := undefined;
  Upstream.longName := undefined;
  Upstream.shortName := undefined;
  Upstream.exchangeName := undefined;
  Upstream.exchange := undefined
|}.

(** A successful response carrying only a price and a previous close. *)
Definition price_response (price prev : Qc) : Response :=
  chart_response (val (sample_meta price prev)) (val no_series).

(** A quote series with a missing sample in every array. *)
Definition sample_series : Upstream.Series := {|
  Upstream.close := val [val (dec 995 10); null; val (dec 100004 1000)];
  Upstream.high := val [val (dec 1015 10); null; val (dec 10325 100)];
  Upstream.low := val [val (dec 9875 100); null; val (dec 99125 1000)];
  Upstream.volume := val [val (dec 100 1); null; val (dec 50 1)]
|}.

Definition series_response : Response :=
  chart_response (val (sample_meta (dec 100004 1000) (dec 90 1)))
    (val sample_series).

(** A successful response with an empty result array. *)
Definition empty_result_response : Response := {|
  ok := true;
  status := 200%N;
  json := Some (val {| Upstream.chart := val {| Upstream.result := val [] |} |})
|}.

Definition not_found_response : Response :=
  {| ok := false; status := 404%N; json := None |}.

(** Metadata with a zero price and previous close, an empty long name
    and no exchange name: every field comes from its fallback. *)
Definition fallback_meta : Upstream.Meta := {|
  Upstream.regularMarketPrice := val 0%Qc;
  Upstream.previousClose := val 0%Qc;
  Upstream.chartPreviousClose := val (dec 90 1);
  Upstream.longName := val "";
  Upstream.shortName := val "Tata Consultancy";
  Upstream.exchangeName := null;
  Upstream.exchange := val "NSI"
|}.

(** Metadata with a price and a previous close of zero. *)
Definition zero_close_meta : Upstream.Meta := {|
  Upstream.regularMarketPrice := val (dec 100004 1000);
  Upstream.previousClose := undefined;
  Upstream.chartPreviousClose := val 0%Qc;
  Upstream.longName := undefined;
  Upstream.shortName := undefined;
  Upstream.exchangeName := undefined;
  Upstream.exchange := undefined
|}.

(** A quote series whose high and low arrays hold no number. *)
Definition null_series : Upstream.Series := {|
  Upstream.close := undefined;
  Upstream.high := val [null; null];
  Upstream.low := val [];
  Upstream.volume := undefined
|}.

(** A successful response whose first result entry has metadata but an
    empty array of quote series. *)
Definition seriesless_response : Response := {|
  ok := true;
  status := 200%N;
  json := Some (val {| Upstream.chart := val {| Upstream.result := val [
    val {| Upstream.meta := val (sample_meta (dec 100004 1000) (dec 90 1));
           Upstream.indicators := val {| Upstream.quote := val [] |} |} ] |} |})
|}.

(** A network that answers by symbol alone. *)
Definition steady_net : Network := fun _ symbol =>
  if String.eqb symbol "BADSYM" then Some not_found_response
  else Some (price_response (dec 100004 1000) (dec 90 1)).

Definition full_search_quote : YahooSearch.Quote := {|
  YahooSearch.symbol := val "TCS.NS";
  YahooSearch.longname := val "Tata Consultancy Services Limited";
  YahooSearch.shortname := val "TCS";
  YahooSearch.exchange := val "NSI";
  YahooSearch.exchDisp := val "NSE";
  YahooSearch.quoteType := val "EQUITY";
  YahooSearch.currency := val "INR"
|}.

Definition bare_search_quote : YahooSearch.Quote := {|
  YahooSearch.symbol := val "INFY.NS";
  YahooSearch.longname := undefined;
  YahooSearch.shortname := undefined;
  YahooSearch.exchange := undefined;
  YahooSearch.exchDisp := undefined;
  YahooSearch.quoteType := undefined;
  YahooSearch.currency := undefined
|}.

(** A network for the examples: ["BADSYM"] is unknown upstream, the
    first request of a batch is lost, everything else is quoted at
    100.004 against a previous close of 90. *)
Definition sample_net : Network := fun position symbol =>
  if String.eqb symbol "BADSYM" then Some not_found_response
  else if Nat.eqb position 0 then None
  else Some (price_response (dec 100004 1000) (dec 90 1)).

(** The record [fetchStockData] builds from
    [price_response 100.004 90]. *)
Definition sample_quote (symbol : string) : Quote.t := {|
  Quote.symbol := symbol;
  Quote.name := symbol;
  Quote.ltp := Fin (dec 10000 100);
  Quote.change := Fin (dec 1000 100);
  Quote.percent := Fin (dec 1112 100);
  Quote.exchange := "Unknown";
  Quote.previousClose := Fin (dec 9000 100);
  Quote.high := Fin (dec 100004 1000);
  Quote.low := Fin (dec 100004 1000);
  Quote.volume := Fin (dec 0 1)
|}.

(** ** Specification-side notions *)

(** The entry the batch stores for the outcome of one fetch. *)
Definition entry_of (outcome : option Quote.t) : BatchEntry :=
  match outcome with
  | Some q => Stock q
  | None => Failed "Failed to fetch"
  end.

(** A value that may be missing, as an option. *)
Definition present {A} (o : js A) : option A :=
  match o with
  | val a => Some a
  | _ => None
  end.

(** The metadata of the first result entry of a successful response and
    the first quote series of that entry (which may be missing). *)
Definition upstream_first (fetched : Fetched)
  : option (Upstream.Meta * js Upstream.Series) :=
  response ← fetched;
  if ok response then
    data ← json response;
    body ← present data;
    chart ← present (Upstream.chart body);
    results ← present (Upstream.result chart);
    result ← present (js_index results 0);
    meta ← present (Upstream.meta result);
    indicators ← present (Upstream.indicators result);
    quotes ← present (Upstream.quote indicators);
    Some (meta, js_index quotes 0)
  else None.

(** The last sample of the close series, [undefined] when there is no
    series, no close array or no sample. *)
Definition last_close (series : js Upstream.Series) : js Qc :=
  match series with
  | val s =>
      match Upstream.close s with
      | val close => js_index close (Z.of_nat (length close) - 1)
      | _ => undefined
      end
  | _ => undefined
  end.

(** The current price the provider reports: the regular market price,
    or else the last close sample. *)
Definition upstream_price (meta : Upstream.Meta) (series : js Upstream.Series)
  : js Qc :=
  if truthy (Upstream.regularMarketPrice meta)
  then Upstream.regularMarketPrice meta
  else last_close series.

(** The previous close the provider reports. *)
Definition upstream_previous_close (meta : Upstream.Meta) : js Qc :=
  js_or (Upstream.previousClose meta) (Upstream.chartPreviousClose meta).

(** The record built from the metadata, the first series, the current
    price and the previous close. *)
Definition quote_of (symbol : string) (meta : Upstream.Meta)
    (series : Upstream.Series) (price prev : Qc) : Quote.t := {|
  Quote.symbol := symbol;
  Quote.name :=
    or_else (js_or (Upstream.longName meta) (Upstream.shortName meta)) symbol;
  Quote.ltp := toFixed 2 (Fin price);
  Quote.change := toFixed 2 (Fin (price - prev)%Qc);
  Quote.percent :=
    toFixed 2 (js_mul (js_div (Fin (price - prev)%Qc) (Fin prev))
                 (Fin (Qc_of_Z 100)));
  Quote.exchange :=
    or_else (js_or (Upstream.exchangeName meta) (Upstream.exchange meta))
      "Unknown";
  Quote.previousClose := toFixed 2 (Fin prev);
  Quote.high :=
    match Upstream.high series with
    | val samples => Math_max (ToNumber <$> List.filter not_null samples)
    | _ => Fin price
    end;
  Quote.low :=
    match Upstream.low series with
    | val samples => Math_min (ToNumber <$> List.filter not_null samples)
    | _ => Fin price
    end;
  Quote.volume :=
    match Upstream.volume series with
    | val samples =>
        foldl (fun a b => js_add (number_or a (Fin 0)) (Fin (or_else b 0%Qc)))
          (Fin 0) samples
    | _ => Fin 0
    end
|}.

(** The derived fields as read from the stored, already rounded, fields
    of the record. *)
Definition derived_from_stored (q : Quote.t) : Prop :=
  Quote.change q
  = toFixed 2 (js_sub (Quote.ltp q) (Quote.previousClose q)) /\
  Quote.percent q
  = toFixed 2 (js_mul (js_div (Quote.change q) (Quote.previousClose q))
                 (Fin (Qc_of_Z 100))).

(** A sample, a missing one counting for zero. *)
Definition sample_or_zero (v : js Qc) : Qc :=
  match v with
  | val x => x
  | _ => 0%Qc
  end.

Definition sum_samples (samples : list (js Qc)) : Qc :=
  foldr (fun v acc => (sample_or_zero v + acc)%Qc) 0%Qc samples.

(** [m] is the greatest (resp. least) element of [xs]. *)
Definition is_maximum (m : Qc) (xs : list Qc) : Prop :=
  m ∈ xs /\ forall x, x ∈ xs -> (x <= m)%Qc.

Definition is_minimum (m : Qc) (xs : list Qc) : Prop :=
  m ∈ xs /\ forall x, x ∈ xs -> (m <= x)%Qc.

(** A network whose answer for a symbol does not depend on the position
    of the request in its batch. *)
Definition position_independent (net : Network) : Prop :=
  forall i j symbol, net i symbol = net j symbol.

(** The network as seen by the requests from position [k] on. *)
Definition shift_net (k : nat) (net : Network) : Network :=
  fun position symbol => net (k + position)%nat symbol.

(** The snapshot of an index read off an entry of a batch object. *)
Definition snapshot_of_entry (index : Index.t) (entry : option BatchEntry)
  : option IndexSnapshot.t :=
  match entry with
  | Some (Stock data) =>
      Some {| IndexSnapshot.name := Index.name index;
              IndexSnapshot.price := Quote.ltp data;
              IndexSnapshot.change := Quote.change data;
              IndexSnapshot.percent := Quote.percent data |}
  | _ => None
  end.

(** A sample that is present is not negative. *)
Definition sample_nonneg (v : js Qc) : Prop :=
  match v with
  | val x => (0 <= x)%Qc
  | _ => True
  end.

(** [r] is a whole number of hundredths within half a hundredth of [q]. *)
Definition rounds_to_cents (r q : Qc) : Prop :=
  (exists k : Z, r = dec k 100) /\
  (r - q <= dec 1 200)%Qc /\ (q - r <= dec 1 200)%Qc.

(** The search result of a quote that is present. *)
Definition search_result_of (q : YahooSearch.Quote) : SearchResult.t := {|
  SearchResult.symbol := YahooSearch.symbol q;
  SearchResult.name :=
    js_or (js_or (YahooSearch.longname q) (YahooSearch.shortname q))
      (YahooSearch.symbol q);
  SearchResult.exchange :=
    or_else (js_or (YahooSearch.exchange q) (YahooSearch.exchDisp q))
      "Unknown";
  SearchResult.type := or_else (YahooSearch.quoteType q) "EQUITY";
  SearchResult.currency := or_else (YahooSearch.currency q) "USD"
|}.

(** A successful search reply with the given [quotes] property. *)
Definition search_response (quotes : js (list (js YahooSearch.Quote)))
  : YahooSearch.Response := {|
  YahooSearch.ok := true;
  YahooSearch.status := 200%N;
  YahooSearch.json := Some (val {| YahooSearch.quotes := quotes |})
|}.

(** [q] is in the range where [toFixed] prints digits. *)
Definition fixed_range (q : Qc) : Prop :=
  (Qabs q < inject_Z (10 ^ 21))%Q.

(** * Properties *)

(** ** Numbers *)

Lemma Qc_eqb_eq (p q : Qc) : Qc_eqb p q = true <-> p = q.
Proof.
  unfold Qc_eqb. rewrite Qceq_alt. destruct (p ?= q)%Qc; intuition congruence.
Qed.

Lemma Qc_ltb_lt (p q : Qc) : Qc_ltb p q = true <-> (p < q)%Qc.
Proof.
  unfold Qc_ltb. rewrite Qclt_alt. destruct (p ?= q)%Qc; intuition congruence.
Qed.

(** Two canonical rationals with equal fractions are equal. *)
Ltac qc_eq := apply Qc_is_canon; vm_compute; reflexivity.

(** ** The batch object *)

Section Batch.

Variable results : list (option Quote.t).

Lemma store_result_insert (m : gmap string BatchEntry) (s : string) (i : nat) :
  store_result results m s i = <[s := entry_of (mjoin (results !! i))]> m.
Proof.
  unfold store_result. destruct (results !! i) as [[q|]|]; reflexivity.
Qed.

Lemma forEach_from_dom (l : list string) :
  forall (i : nat) (m : gmap string BatchEntry),
    dom (forEach_from (store_result results) i l m) = dom m ∪ list_to_set l.
Proof.
  induction l as [|s l IH]; intros i m; simpl.
  - set_solver.
  - rewrite IH, store_result_insert, dom_insert_L. set_solver.
Qed.

Lemma forEach_from_lookup_notin (l : list string) (s : string) :
  s ∉ l ->
  forall (i : nat) (m : gmap string BatchEntry),
    forEach_from (store_result results) i l m !! s = m !! s.
Proof.
  induction l as [|s' l IH]; intros Hs i m; simpl; [reflexivity|].
  apply not_elem_of_cons in Hs as [Hne Hs].
  rewrite IH, store_result_insert by assumption.
  apply lookup_insert_ne. congruence.
Qed.

(** The entry of a symbol comes from its last occurrence. *)
Lemma forEach_from_lookup_last (l : list string) :
  forall (i k : nat) (m : gmap string BatchEntry) (s : string),
    l !! k = Some s ->
    (forall j, (k < j)%nat -> l !! j <> Some s) ->
    forEach_from (store_result results) i l m !! s
    = Some (entry_of (mjoin (results !! (i + k)%nat))).
Proof.
  induction l as [|s' l IH]; intros i k m s Hk Hlast; [discriminate|].
  destruct k as [|k]; simpl in *.
  - injection Hk as ->.
    rewrite forEach_from_lookup_notin.
    + rewrite store_result_insert, lookup_insert_eq.
      by rewrite Nat.add_0_r.
    + intros [j Hj]%list_elem_of_lookup.
      apply (Hlast (S j)); [lia | exact Hj].
  - rewrite (IH (S i) k _ s Hk).
    + by rewrite Nat.add_succ_r.
    + intros j Hj. apply (Hlast (S j)). lia.
Qed.

(** Every entry comes from some occurrence of its key. *)
Lemma forEach_from_lookup_inv (l : list string) :
  forall (i : nat) (m : gmap string BatchEntry) (s : string) (e : BatchEntry),
    forEach_from (store_result results) i l m !! s = Some e ->
    m !! s = Some e \/
    exists k, l !! k = Some s /\ e = entry_of (mjoin (results !! (i + k)%nat)).
Proof.
  induction l as [|s' l IH]; intros i m s e He; simpl in *; [by left|].
  apply IH in He as [He | (k & Hk & ->)].
  - rewrite store_result_insert in He.
    destruct (decide (s' = s)) as [->|Hne].
    + rewrite lookup_insert_eq in He. injection He as <-.
      right. exists 0%nat. by rewrite Nat.add_0_r.
    + rewrite lookup_insert_ne in He by assumption. by left.
  - right. exists (S k). by rewrite Nat.add_succ_r.
Qed.

End Batch.

Lemma batch_results_lookup (net : Network) (l : list string) (k : nat) (s : string) :
  l !! k = Some s ->
  mjoin (imap (fun index symbol => fetchStockData (net index symbol) symbol) l !! k)
  = fetchStockData (net k s) s.
Proof. intros Hk. by rewrite list_lookup_imap, Hk. Qed.

Lemma fetchBatchStocks_array (net : Network) (l : list string) :
  fetchBatchStocks_try net (val l) = Normal (fetchBatchStocks net (val l)).
Proof. reflexivity. Qed.

Lemma fetchBatchStocks_dom (net : Network) (l : list string) :
  dom (fetchBatchStocks net (val l)) = list_to_set l.
Proof.
  unfold fetchBatchStocks, fetchBatchStocks_try, forEach; simpl.
  rewrite forEach_from_dom. set_solver.
Qed.

Lemma fetchBatchStocks_lookup_last (net : Network) (l : list string)
    (k : nat) (s : string) :
  l !! k = Some s ->
  (forall j, (k < j)%nat -> l !! j <> Some s) ->
  fetchBatchStocks net (val l) !! s = Some (entry_of (fetchStockData (net k s) s)).
Proof.
  intros Hk Hlast.
  unfold fetchBatchStocks, fetchBatchStocks_try, forEach; simpl.
  rewrite (forEach_from_lookup_last _ l 0 k ∅ s Hk Hlast); simpl.
  by rewrite (batch_results_lookup net l k s Hk).
Qed.

Lemma NoDup_lookup_last (l : list string) (k : nat) (s : string) :
  NoDup l -> l !! k = Some s -> forall j, (k < j)%nat -> l !! j <> Some s.
Proof.
  intros Hnd Hk j Hj Hjs.
  pose proof (NoDup_lookup l k j s Hnd Hk Hjs). lia.
Qed.

Lemma sample_net_quote (position : nat) (symbol : string) :
  String.eqb symbol "BADSYM" = false ->
  Nat.eqb position 0 = false ->
  fetchStockData (sample_net position symbol) symbol = Some (sample_quote symbol).
Proof.
  intros Hs Hp. unfold sample_net. rewrite Hs, Hp.
  unfold fetchStockData, sample_quote. cbn.
  repeat f_equal; qc_eq.
Qed.









(** X15.  The backend client never lets an exception out either, and
    what it does is decided by the reply alone: the [stocks] object of a
    successful reply, the empty object in every other case. *)
Lemma Backend_fetchBatchStocks_reply (fetched : option Backend.Response)
    (symbols : js (list string)) :
  Backend.fetchBatchStocks fetched symbols
  = match fetched with
    | Some {| Backend.ok := true;
              Backend.json := Some (val {| Backend.stocks := val stocks |}) |} =>
        stocks
    | _ => ∅
    end.
Proof.
  unfold Backend.fetchBatchStocks, Backend.fetchBatchStocks_try.
  destruct fetched as [[[] code [[| |[[| |stocks]]]|]]|]; reflexivity.
Qed.

(** ** The index snapshots *)

Lemma fetchIndices_elem_of (net : Network) (snap : IndexSnapshot.t) :
  snap ∈ fetchIndices net <->
  exists i index, indices !! i = Some index /\
    index_snapshot net i index = Some snap.
Proof.
  unfold fetchIndices. rewrite list_elem_of_omap. split.
  - intros (r & (i & index & -> & Hi)%elem_of_lookup_imap & Hr).
    exists i, index. by split.
  - intros (i & index & Hi & Hsnap).
    exists (Some snap). split; [|reflexivity].
    apply elem_of_lookup_imap. exists i, index. by split.
Qed.

(** C8.  [fetchIndices] returns one snapshot [{name, price, change,
    percent}] per index of the fixed three-entry list whose fetch
    succeeded and nothing for an index whose fetch failed; the result is
    no longer than the fixed list, its names appear in declaration order
    (NIFTY 50, NIFTY BANK, SENSEX), and it is the empty sequence when all
    three fetches fail. *)
Theorem fetchIndices_snapshots (net : Network) :
  length indices = 3%nat /\
  (length (fetchIndices net) <= length indices)%nat /\
  length (fetchIndices net)
  = length (filter (fun p : nat * Index.t =>
              is_Some (fetchStockData (net p.1 (Index.symbol p.2))
                         (Index.symbol p.2)))
            (imap pair indices)) /\
  (IndexSnapshot.name <$> fetchIndices net)
    `sublist_of` ["NIFTY 50"; "NIFTY BANK"; "SENSEX"] /\
  (forall snap, snap ∈ fetchIndices net <->
     exists i index data, indices !! i = Some index /\
       fetchStockData (net i (Index.symbol index)) (Index.symbol index)
       = Some data /\
       snap = {| IndexSnapshot.name := Index.name index;
                 IndexSnapshot.price := Quote.ltp data;
                 IndexSnapshot.change := Quote.change data;
                 IndexSnapshot.percent := Quote.percent data |}) /\
  ((forall i index, indices !! i = Some index ->
      fetchStockData (net i (Index.symbol index)) (Index.symbol index) = None) ->
   fetchIndices net = []).
Proof.
  split; [reflexivity|].
  assert (Hshape :
    (length (fetchIndices net) <= length indices)%nat /\
    length (fetchIndices net)
    = length (filter (fun p : nat * Index.t =>
                is_Some (fetchStockData (net p.1 (Index.symbol p.2))
                           (Index.symbol p.2)))
              (imap pair indices)) /\
    (IndexSnapshot.name <$> fetchIndices net)
      `sublist_of` ["NIFTY 50"; "NIFTY BANK"; "SENSEX"]).
  { unfold fetchIndices, indices, index_snapshot; cbn.
    destruct (fetchStockData (net 0%nat "^NSEI") "^NSEI");
      destruct (fetchStockData (net 1%nat "^NSEBANK") "^NSEBANK");
      destruct (fetchStockData (net 2%nat "^BSESN") "^BSESN"); cbn;
      (split; [lia|]); (split; [reflexivity|]);
      repeat first [apply sublist_nil | apply sublist_skip | apply sublist_cons]. }
  destruct Hshape as (Hlen & Hcount & Horder).
  split; [exact Hlen|]. split; [exact Hcount|]. split; [exact Horder|]. split.
  - intros snap. rewrite fetchIndices_elem_of. unfold index_snapshot. split.
    + intros (i & index & Hi & Hsnap).
      destruct (fetchStockData _ _) as [data|] eqn:Hdata; [|discriminate].
      injection Hsnap as <-. by exists i, index, data.
    + intros (i & index & data & Hi & Hdata & ->).
      exists i, index. by rewrite Hdata.
  - intros Hfail.
    destruct (fetchIndices net) as [|snap rest] eqn:Hres; [reflexivity|].
    assert (Hin : snap ∈ fetchIndices net) by (rewrite Hres; apply list_elem_of_here).
    apply fetchIndices_elem_of in Hin as (i & index & Hi & Hsnap).
    unfold index_snapshot in Hsnap. by rewrite (Hfail i index Hi) in Hsnap.
Qed.

Lemma fetchIndices_snapshots_witness :
  (forall i index, indices !! i = Some index ->
     fetchStockData (None : Fetched) (Index.symbol index) = None) /\
  fetchIndices (fun _ _ => None) = [].
Proof.
  assert (Hfail : forall i index, indices !! i = Some index ->
            fetchStockData (None : Fetched) (Index.symbol index) = None)
    by reflexivity.
  split; [exact Hfail|].
  exact (proj2 (proj2 (proj2 (proj2 (proj2
           (fetchIndices_snapshots (fun _ _ => None)))))) Hfail).
Defined.

(** ** The single-symbol fetch *)

(** Case analysis on the innermost scrutinee of a term. *)
Ltac destruct_inner t :=
  lazymatch t with
  | context [match ?x with _ => _ end] => destruct_inner x
  | _ => destruct t eqn:?
  end.

Ltac case_inner :=
  lazymatch goal with
  | |- context [match ?x with _ => _ end] => destruct_inner x
  end.

(** The fetch, as a function of what the response carries. *)
Lemma fetchStockData_unfold (fetched : Fetched) (symbol : string) :
  fetchStockData fetched symbol
  = '(meta, quote) ← upstream_first fetched;
    series ← present quote;
    price ← present (upstream_price meta quote);
    prev ← present (upstream_previous_close meta);
    Some (quote_of symbol meta series price prev).
Proof.
  unfold fetchStockData, fetchStockData_try, upstream_first, upstream_price,
    upstream_previous_close, last_close, quote_of.
  unfold mbind, completion_bind, option_bind, mret, completion_ret, deref,
    present.
  cbn beta iota.
  repeat (case_inner; simplify_eq; cbn beta iota;
          try reflexivity; try congruence).
Qed.

Lemma present_Some {A} (o : js A) (a : A) : present o = Some a <-> o = val a.
Proof. destruct o; simpl; split; congruence. Qed.

(** A fetch succeeds exactly when the response is successful, its first
    result entry carries metadata and a first quote series, and both the
    current price and the previous close are numbers; the record is then
    [quote_of]. *)
Lemma fetchStockData_Some (fetched : Fetched) (symbol : string) (q : Quote.t) :
  fetchStockData fetched symbol = Some q <->
  exists meta series price prev,
    upstream_first fetched = Some (meta, val series) /\
    upstream_price meta (val series) = val price /\
    upstream_previous_close meta = val prev /\
    q = quote_of symbol meta series price prev.
Proof.
  rewrite fetchStockData_unfold. split.
  - intros ([meta quote] & Hfirst & H)%bind_Some.
    apply bind_Some in H as (series & ->%present_Some & H).
    apply bind_Some in H as (price & Hprice%present_Some & H).
    apply bind_Some in H as (prev & Hprev%present_Some & H).
    injection H as <-. by exists meta, series, price, prev.
  - intros (meta & series & price & prev & Hfirst & Hprice & Hprev & ->).
    rewrite Hfirst; simpl. rewrite Hprice; simpl. by rewrite Hprev.
Qed.

Lemma fetchStockData_None_no_price (fetched : Fetched) (symbol : string)
    (meta : Upstream.Meta) (quote : js Upstream.Series) :
  upstream_first fetched = Some (meta, quote) ->
  present (upstream_price meta quote) = None ->
  fetchStockData fetched symbol = None.
Proof.
  intros Hfirst Hprice. rewrite fetchStockData_unfold, Hfirst; simpl.
  destruct (present quote); simpl; [|reflexivity]. by rewrite Hprice.
Qed.

Lemma number_eq_Qeq (p q : Qc) : (p == q)%Q -> Fin p = Fin q.
Proof. intros H. f_equal. by apply Qc_is_canon. Qed.

Lemma number_Fin_inj (p q : Qc) : Fin p = Fin q -> (p == q)%Q.
Proof. intros [= ->]. reflexivity. Qed.

Lemma sample_response_quote (symbol : string) :
  fetchStockData (Some (price_response (dec 100004 1000) (dec 90 1))) symbol
  = Some (sample_quote symbol).
Proof.
  unfold fetchStockData, sample_quote. cbn. repeat f_equal; qc_eq.
Qed.




Lemma series_response_quote (symbol : string) :
  fetchStockData (Some series_response) symbol
  = Some (quote_of symbol (sample_meta (dec 100004 1000) (dec 90 1))
            sample_series (dec 100004 1000) (dec 90 1)).
Proof.
  apply fetchStockData_Some.
  exists (sample_meta (dec 100004 1000) (dec 90 1)), sample_series,
    (dec 100004 1000), (dec 90 1).
  repeat split; reflexivity.
Qed.

(** ** Volume *)

Lemma or_else_zero (b : js Qc) : or_else b 0%Qc = sample_or_zero b.
Proof.
  destruct b as [| |x]; try reflexivity. simpl.
  unfold truthy, Qc_truthy. destruct (Qc_eqb x 0) eqn:Hx; [|reflexivity].
  apply Qc_eqb_eq in Hx. by subst.
Qed.

Lemma number_or_Fin (a : Qc) : number_or (Fin a) (Fin 0) = Fin a.
Proof.
  unfold number_or, truthy, number_truthy, truthy, Qc_truthy.
  destruct (Qc_eqb a 0) eqn:Ha; [|reflexivity].
  apply Qc_eqb_eq in Ha. by subst.
Qed.

Lemma volume_reduce (samples : list (js Qc)) :
  forall a : Qc,
    foldl (fun a b => js_add (number_or a (Fin 0)) (Fin (or_else b 0%Qc)))
      (Fin a) samples
    = Fin (a + sum_samples samples)%Qc.
Proof.
  induction samples as [|b samples IH]; intros a; simpl.
  - f_equal. ring.
  - rewrite number_or_Fin, or_else_zero. simpl. rewrite IH. f_equal. ring.
Qed.



(** ** Fallbacks and failures *)

(** C5.  In a response whose first result entry carries metadata, the
    fetch succeeds as soon as the current price, the previous close and
    the first quote series are there, whatever the descriptive fields
    are: with no long and no short name the record is named after the
    symbol, with no exchange name and no exchange code its exchange is
    ["Unknown"].  With no regular market price (absent, [null] or zero)
    and no last close sample (no series, no close array, an empty one or
    a [null] last sample) the fetch returns the failure value. *)
Theorem malformed_response_policy (fetched : Fetched) (symbol : string)
    (meta : Upstream.Meta) (quote : js Upstream.Series) :
  upstream_first fetched = Some (meta, quote) ->
  (forall series price prev,
     quote = val series ->
     upstream_price meta quote = val price ->
     upstream_previous_close meta = val prev ->
     exists q,
       fetchStockData fetched symbol = Some q /\
       (present (Upstream.longName meta) = None ->
        present (Upstream.shortName meta) = None ->
        Quote.name q = symbol) /\
       (present (Upstream.exchangeName meta) = None ->
        present (Upstream.exchange meta) = None ->
        Quote.exchange q = "Unknown")) /\
  (truthy (Upstream.regularMarketPrice meta) = false ->
   present (last_close quote) = None ->
   fetchStockData fetched symbol = None).
Proof.
  intros Hfirst. split.
  - intros series price prev -> Hprice Hprev.
    exists (quote_of symbol meta series price prev). split.
    + apply fetchStockData_Some. by exists meta, series, price, prev.
    + simpl. split.
      * intros Hlong Hshort.
        by destruct (Upstream.longName meta), (Upstream.shortName meta).
      * intros Hname Hcode.
        by destruct (Upstream.exchangeName meta), (Upstream.exchange meta).
  - intros Hprice Hclose.
    apply (fetchStockData_None_no_price fetched symbol meta quote Hfirst).
    unfold upstream_price. by rewrite Hprice.
Qed.

Lemma malformed_response_policy_witness :
  (exists q,
     fetchStockData (Some (price_response (dec 100004 1000) (dec 90 1))) "INFY.NS"
     = Some q /\
     Quote.name q = "INFY.NS" /\ Quote.exchange q = "Unknown") /\
  fetchStockData (Some (chart_response (val no_meta) (val no_series))) "INFY.NS"
  = None.
Proof.
  split.
  - destruct (proj1 (malformed_response_policy
                (Some (price_response (dec 100004 1000) (dec 90 1))) "INFY.NS"
                (sample_meta (dec 100004 1000) (dec 90 1)) (val no_series)
                eq_refl)
              no_series (dec 100004 1000) (dec 90 1) eq_refl eq_refl eq_refl)
      as (q & Hq & Hname & Hexchange).
    exists q. split; [exact Hq|].
    split; [exact (Hname eq_refl eq_refl) | exact (Hexchange eq_refl eq_refl)].
  - exact (proj2 (malformed_response_policy
                    (Some (chart_response (val no_meta) (val no_series)))
                    "INFY.NS" no_meta (val no_series) eq_refl)
             eq_refl eq_refl).
Defined.

(** C6.  [fetchStockData] never raises: whatever [fetch] delivered, an
    exception of the [try] block is turned into the one failure value
    [null].  That is what happens when [fetch] rejects, when the HTTP
    status is not a success, when the body is not JSON or is [null], when
    the chart or its result array is missing, and when the result array
    has no first entry; in the last case the exception raised is the
    error 'No data available for this symbol'. *)
Theorem fetchStockData_failure_is_sentinel (symbol : string) :
  (forall fetched,
     (exists q, fetchStockData_try fetched symbol = Normal q /\
                fetchStockData fetched symbol = Some q) \/
     (exists e, fetchStockData_try fetched symbol = Throw e /\
                fetchStockData fetched symbol = None)) /\
  fetchStockData None symbol = None /\
  (forall code body,
     fetchStockData_try
       (Some {| ok := false; status := code; json := body |}) symbol
     = Throw (Error ("Failed to fetch " +:+ symbol +:+ ": " +:+ pretty code)) /\
     fetchStockData
       (Some {| ok := false; status := code; json := body |}) symbol = None) /\
  (forall code,
     fetchStockData (Some {| ok := true; status := code; json := None |}) symbol
     = None /\
     fetchStockData
       (Some {| ok := true; status := code; json := Some null |}) symbol
     = None) /\
  (forall code chart,
     present chart = None ->
     fetchStockData
       (Some {| ok := true; status := code;
                json := Some (val {| Upstream.chart := chart |}) |}) symbol
     = None) /\
  (forall code results,
     present results = None ->
     fetchStockData
       (Some {| ok := true; status := code;
                json := Some (val {| Upstream.chart :=
                  val {| Upstream.result := results |} |}) |}) symbol
     = None) /\
  (forall code results,
     present (js_index results 0) = None ->
     fetchStockData_try
       (Some {| ok := true; status := code;
                json := Some (val {| Upstream.chart :=
                  val {| Upstream.result := val results |} |}) |}) symbol
     = Throw (Error "No data available for this symbol") /\
     fetchStockData
       (Some {| ok := true; status := code;
                json := Some (val {| Upstream.chart :=
                  val {| Upstream.result := val results |} |}) |}) symbol
     = None).
Proof.
  split.
  { intros fetched. unfold fetchStockData.
    destruct (fetchStockData_try fetched symbol) as [q|e]; eauto. }
  split; [reflexivity|]. split; [by split|]. split; [by split|]. split.
  { intros code chart Hchart. by destruct chart. }
  split.
  { intros code results Hresults. by destruct results. }
  intros code results Hfirst.
  unfold fetchStockData, fetchStockData_try; simpl.
  change (default undefined (results !! Z.to_nat 0)) with (js_index results 0).
  by destruct (js_index results 0).
Qed.

Lemma fetchStockData_failure_is_sentinel_witness :
  present (js_index ([] : list (js Upstream.Result)) 0) = None /\
  fetchStockData_try (Some empty_result_response) "BADSYM"
  = Throw (Error "No data available for this symbol") /\
  fetchStockData (Some empty_result_response) "BADSYM" = None /\
  fetchStockData_try (Some not_found_response) "BADSYM"
  = Throw (Error "Failed to fetch BADSYM: 404").
Proof.
  pose proof (fetchStockData_failure_is_sentinel "BADSYM")
    as (_ & _ & Hstatus & _ & _ & _ & Hempty).
  split; [reflexivity|].
  destruct (Hempty 200%N [] eq_refl) as [Hthrow Hnull].
  split; [exact Hthrow|]. split; [exact Hnull|].
  exact (proj1 (Hstatus 404%N None)).
Defined.

(** ** Day high and day low *)

Lemma existsb_is_NaN_Fin (xs : list Qc) : existsb is_NaN (Fin <$> xs) = false.
Proof. induction xs as [|x xs IH]; [reflexivity | exact IH]. Qed.

Lemma ToNumber_val (xs : list Qc) : ToNumber <$> (val <$> xs) = Fin <$> xs.
Proof. by rewrite <- list_fmap_compose. Qed.

Lemma max_scan (xs : list Qc) :
  forall a : Qc,
  exists m,
    foldl (fun highest x => if number_ltb highest x then x else highest)
      (Fin a) (Fin <$> xs) = Fin m /\
    (m = a \/ m ∈ xs) /\ (a <= m)%Qc /\ forall x, x ∈ xs -> (x <= m)%Qc.
Proof.
  induction xs as [|x xs IH]; intros a; simpl.
  - exists a. repeat split; [by left | apply Qcle_refl |].
    intros x Hx. by apply elem_of_nil in Hx.
  - destruct (Qc_ltb a x) eqn:Hlt.
    + apply Qc_ltb_lt in Hlt.
      destruct (IH x) as (m & Hscan & Hm & Hxm & Hall). exists m.
      split; [exact Hscan|]. repeat split.
      * right. destruct Hm as [->|Hm]; [apply list_elem_of_here|].
        by apply list_elem_of_further.
      * apply Qcle_trans with x; [by apply Qclt_le_weak | exact Hxm].
      * intros y [->|Hy]%elem_of_cons; [exact Hxm | by apply Hall].
    + assert (Hxa : (x <= a)%Qc).
      { apply Qcnot_lt_le. intros Hlt'%Qc_ltb_lt. congruence. }
      destruct (IH a) as (m & Hscan & Hm & Ham & Hall). exists m.
      split; [exact Hscan|]. repeat split.
      * destruct Hm as [->|Hm]; [by left | right; by apply list_elem_of_further].
      * exact Ham.
      * intros y [->|Hy]%elem_of_cons; [|by apply Hall].
        by apply Qcle_trans with a.
Qed.

Lemma min_scan (xs : list Qc) :
  forall a : Qc,
  exists m,
    foldl (fun lowest x => if number_ltb x lowest then x else lowest)
      (Fin a) (Fin <$> xs) = Fin m /\
    (m = a \/ m ∈ xs) /\ (m <= a)%Qc /\ forall x, x ∈ xs -> (m <= x)%Qc.
Proof.
  induction xs as [|x xs IH]; intros a; simpl.
  - exists a. repeat split; [by left | apply Qcle_refl |].
    intros x Hx. by apply elem_of_nil in Hx.
  - destruct (Qc_ltb x a) eqn:Hlt.
    + apply Qc_ltb_lt in Hlt.
      destruct (IH x) as (m & Hscan & Hm & Hmx & Hall). exists m.
      split; [exact Hscan|]. repeat split.
      * right. destruct Hm as [->|Hm]; [apply list_elem_of_here|].
        by apply list_elem_of_further.
      * apply Qcle_trans with x; [exact Hmx | by apply Qclt_le_weak].
      * intros y [->|Hy]%elem_of_cons; [exact Hmx | by apply Hall].
    + assert (Hax : (a <= x)%Qc).
      { apply Qcnot_lt_le. intros Hlt'%Qc_ltb_lt. congruence. }
      destruct (IH a) as (m & Hscan & Hm & Hma & Hall). exists m.
      split; [exact Hscan|]. repeat split.
      * destruct Hm as [->|Hm]; [by left | right; by apply list_elem_of_further].
      * exact Hma.
      * intros y [->|Hy]%elem_of_cons; [|by apply Hall].
        by apply Qcle_trans with a.
Qed.

(** [Math.max] of a non-empty list of numbers is its greatest element. *)
Lemma Math_max_is_maximum (xs : list Qc) :
  xs <> [] -> exists m, Math_max (Fin <$> xs) = Fin m /\ is_maximum m xs.
Proof.
  destruct xs as [|x xs]; [done|]. intros _.
  unfold Math_max. rewrite existsb_is_NaN_Fin.
  destruct (max_scan xs x) as (m & Hscan & Hm & Hxm & Hall).
  exists m. split; [exact Hscan|]. split.
  - destruct Hm as [->|Hm]; [apply list_elem_of_here | by apply list_elem_of_further].
  - intros y [->|Hy]%elem_of_cons; [exact Hxm | by apply Hall].
Qed.

(** [Math.min] of a non-empty list of numbers is its least element. *)
Lemma Math_min_is_minimum (xs : list Qc) :
  xs <> [] -> exists m, Math_min (Fin <$> xs) = Fin m /\ is_minimum m xs.
Proof.
  destruct xs as [|x xs]; [done|]. intros _.
  unfold Math_min. rewrite existsb_is_NaN_Fin.
  destruct (min_scan xs x) as (m & Hscan & Hm & Hmx & Hall).
  exists m. split; [exact Hscan|]. split.
  - destruct Hm as [->|Hm]; [apply list_elem_of_here | by apply list_elem_of_further].
  - intros y [->|Hy]%elem_of_cons; [exact Hmx | by apply Hall].
Qed.



(** The sample record: the day high is the greatest sample, 103.25, and
    without sample arrays high and low are the price 100.004 while [ltp]
    is 100.00. *)
Lemma high_low_examples :
  Quote.high (quote_of "TCS.NS" (sample_meta (dec 100004 1000) (dec 90 1))
                sample_series (dec 100004 1000) (dec 90 1))
  = Fin (dec 10325 100) /\
  Quote.low (quote_of "TCS.NS" (sample_meta (dec 100004 1000) (dec 90 1))
               sample_series (dec 100004 1000) (dec 90 1))
  = Fin (dec 9875 100) /\
  Quote.high (sample_quote "TCS.NS") = Fin (dec 100004 1000) /\
  Quote.ltp (sample_quote "TCS.NS") = Fin (dec 10000 100) /\
  Quote.high (sample_quote "TCS.NS") <> Quote.ltp (sample_quote "TCS.NS").
Proof.
  split; [vm_compute; apply number_eq_Qeq; reflexivity|].
  split; [vm_compute; apply number_eq_Qeq; reflexivity|].
  do 2 (split; [reflexivity|]).
  intros H%number_Fin_inj. vm_compute in H. discriminate H.
Qed.

(** * Further properties of the data layer *)

(** ** Where the fields of a record come from *)

Lemma js_index_last {A} (arr : list (js A)) :
  js_index arr (Z.of_nat (length arr) - 1) = default undefined (last arr).
Proof.
  unfold js_index. destruct arr as [|x arr]; [reflexivity|].
  replace (Z.of_nat (length (x :: arr)) - 1 <? 0) with false
    by (symmetry; apply Z.ltb_ge; simpl length; lia).
  rewrite last_lookup. do 2 f_equal. simpl length. lia.
Qed.

Lemma present_default_last {A} (arr : list (js A)) (a : A) :
  default undefined (last arr) = val a <-> last arr = Some (val a).
Proof.
  destruct (last arr) as [v|]; simpl; split; congruence.
Qed.

(** X1.  The price of a record is the regular market price when that is
    a number other than zero, and otherwise the last sample of the close
    array, whatever the earlier samples are: a regular market price of
    zero counts as missing. *)
Theorem price_source (fetched : Fetched) (symbol : string) (q : Quote.t)
    (meta : Upstream.Meta) (series : Upstream.Series) :
  fetchStockData fetched symbol = Some q ->
  upstream_first fetched = Some (meta, val series) ->
  exists price,
    Quote.ltp q = toFixed 2 (Fin price) /\
    if truthy (Upstream.regularMarketPrice meta)
    then Upstream.regularMarketPrice meta = val price
    else exists samples,
           Upstream.close series = val samples /\
           last samples = Some (val price).
Proof.
  intros (meta' & series' & price & prev & Hfirst & Hprice & _ & ->)
    %fetchStockData_Some Hfirst'.
  rewrite Hfirst in Hfirst'. injection Hfirst' as -> ->.
  exists price. split; [reflexivity|].
  unfold upstream_price, last_close in Hprice.
  destruct (truthy (Upstream.regularMarketPrice meta)); [exact Hprice|].
  destruct (Upstream.close series) as [| |samples]; try discriminate.
  exists samples. split; [reflexivity|].
  rewrite js_index_last in Hprice. by apply present_default_last.
Qed.

(** X2.  The previous close of a record is [meta.previousClose] when
    that is a number other than zero and [meta.chartPreviousClose]
    otherwise. *)
Theorem previous_close_source (fetched : Fetched) (symbol : string)
    (q : Quote.t) (meta : Upstream.Meta) (quote : js Upstream.Series) :
  fetchStockData fetched symbol = Some q ->
  upstream_first fetched = Some (meta, quote) ->
  exists prev,
    Quote.previousClose q = toFixed 2 (Fin prev) /\
    if truthy (Upstream.previousClose meta)
    then Upstream.previousClose meta = val prev
    else Upstream.chartPreviousClose meta = val prev.
Proof.
  intros (meta' & series' & price & prev & Hfirst & _ & Hprev & ->)
    %fetchStockData_Some Hfirst'.
  rewrite Hfirst in Hfirst'. injection Hfirst' as -> <-.
  exists prev. split; [reflexivity|].
  unfold upstream_previous_close, js_or in Hprev.
  by destruct (truthy (Upstream.previousClose meta)).
Qed.

(** X3.  A response with a usable price is still a failure when it has
    no previous close ([previousClose] missing or zero and
    [chartPreviousClose] missing) or when its first result entry has no
    first quote series. *)
Theorem fetch_needs_previous_close_and_series (fetched : Fetched)
    (symbol : string) (meta : Upstream.Meta) (quote : js Upstream.Series) :
  upstream_first fetched = Some (meta, quote) ->
  (truthy (Upstream.previousClose meta) = false /\
   present (Upstream.chartPreviousClose meta) = None) \/
  present quote = None ->
  fetchStockData fetched symbol = None.
Proof.
  intros Hfirst Hmissing.
  rewrite fetchStockData_unfold, Hfirst; simpl.
  destruct Hmissing as [[Hprev Hchart] | Hquote].
  - destruct (present quote); simpl; [|reflexivity].
    destruct (present (upstream_price meta quote)); simpl; [|reflexivity].
    unfold upstream_previous_close, js_or. by rewrite Hprev, Hchart.
  - by rewrite Hquote.
Qed.

Lemma Qc_sgn_ltb (p : Qc) : (Qc_sgn p <? 0) = Qc_ltb p 0.
Proof.
  unfold Qc_sgn, Qc_ltb, Qccompare, Qcompare.
  destruct p as [[n d] Hc]; simpl. rewrite Z.mul_1_r.
  by destruct n.
Qed.

Lemma toFixed_zero : toFixed 2 (Fin 0) = Fin 0.
Proof. vm_compute. f_equal. qc_eq. Qed.


(** X5.  The name of a record is the long name when that is a non-empty
    string, else the short name when that is a non-empty string, else
    the requested symbol; its exchange is the exchange name, else the
    exchange code, else ["Unknown"], empty strings being passed over in
    the same way; and its symbol is the requested symbol. *)
Theorem descriptive_fields_precedence (fetched : Fetched) (symbol : string)
    (q : Quote.t) (meta : Upstream.Meta) (quote : js Upstream.Series) :
  fetchStockData fetched symbol = Some q ->
  upstream_first fetched = Some (meta, quote) ->
  Quote.symbol q = symbol /\
  Quote.name q
  = match Upstream.longName meta, Upstream.shortName meta with
    | val (String c long), _ => String c long
    | _, val (String c short) => String c short
    | _, _ => symbol
    end /\
  Quote.exchange q
  = match Upstream.exchangeName meta, Upstream.exchange meta with
    | val (String c name), _ => String c name
    | _, val (String c code) => String c code
    | _, _ => "Unknown"
    end.
Proof.
  intros (meta' & series' & price & prev & Hfirst & _ & _ & ->)
    %fetchStockData_Some Hfirst'.
  rewrite Hfirst in Hfirst'. injection Hfirst' as -> <-.
  split; [reflexivity|]. split; simpl.
  - by destruct (Upstream.longName meta) as [| |[|c long]],
               (Upstream.shortName meta) as [| |[|c' short]].
  - by destruct (Upstream.exchangeName meta) as [| |[|c name]],
               (Upstream.exchange meta) as [| |[|c' code]].
Qed.

Lemma filter_not_null_all_null {A} (samples : list (js A)) :
  Forall (fun v => v = null) samples -> List.filter not_null samples = [].
Proof.
  induction 1 as [|v samples -> _ IH]; [reflexivity | exact IH].
Qed.

(** X6.  A high (resp. low) array that is present but holds no sample
    other than [null], the empty array included, gives a record whose
    [high] is [-Infinity] (resp. whose [low] is [Infinity]), not the
    current price. *)
Theorem high_low_without_samples (fetched : Fetched) (symbol : string)
    (q : Quote.t) (meta : Upstream.Meta) (series : Upstream.Series) :
  fetchStockData fetched symbol = Some q ->
  upstream_first fetched = Some (meta, val series) ->
  (forall samples,
     Upstream.high series = val samples ->
     Forall (fun v => v = null) samples -> Quote.high q = NegInf) /\
  (forall samples,
     Upstream.low series = val samples ->
     Forall (fun v => v = null) samples -> Quote.low q = PosInf).
Proof.
  intros (meta' & series' & price & prev & Hfirst & _ & _ & ->)
    %fetchStockData_Some Hfirst'.
  rewrite Hfirst in Hfirst'. injection Hfirst' as -> ->.
  split; intros samples Harr Hnull; simpl; rewrite Harr;
    by rewrite (filter_not_null_all_null samples Hnull).
Qed.

Lemma sum_samples_nonneg (samples : list (js Qc)) :
  Forall sample_nonneg samples -> (0 <= sum_samples samples)%Qc.
Proof.
  induction 1 as [|v samples Hv _ IH]; simpl; [apply Qcle_refl|].
  replace 0%Qc with (0 + 0)%Qc by ring.
  apply Qcplus_le_compat; [|exact IH].
  destruct v; simpl; first [exact Hv | apply Qcle_refl].
Qed.


(** ** Rounding to two digits *)

Lemma round_half_away_Q (q : Q) :
  let n := Qfloor (Qabs q * inject_Z 100 + (1 # 2)) in
  let r := (inject_Z (Z.sgn (Qnum q) * n) / inject_Z 100)%Q in
  (r - q <= 1 # 200)%Q /\ (q - r <= 1 # 200)%Q.
Proof.
  intros n r.
  pose proof (Qfloor_le (Qabs q * inject_Z 100 + (1 # 2))) as Hle.
  pose proof (Qlt_floor (Qabs q * inject_Z 100 + (1 # 2))) as Hlt.
  fold n in Hle, Hlt. rewrite inject_Z_plus in Hlt.
  subst r. unfold Qdiv. change (/ inject_Z 100)%Q with (1 # 100)%Q.
  destruct q as [[|num|num] den]; simpl Z.sgn.
  - assert (Hq : (0 # den == 0)%Q) by reflexivity.
    rewrite Z.mul_0_l. rewrite Hq. split; vm_compute; discriminate.
  - rewrite Z.mul_1_l.
    assert (Ha : (Qabs (Z.pos num # den) == Z.pos num # den)%Q) by reflexivity.
    rewrite Ha in Hle, Hlt. unfold inject_Z in *.
    set (x := (Z.pos num # den)%Q) in *. clearbody x.
    set (m := (n # 1)%Q) in *. clearbody m.
    split; lra.
  - assert (Ha : (Qabs (Z.neg num # den) == - (Z.neg num # den))%Q)
      by reflexivity.
    rewrite Ha in Hle, Hlt.
    replace (-1 * n) with (- n) by lia. rewrite inject_Z_opp.
    unfold inject_Z in *.
    set (x := (Z.neg num # den)%Q) in *. clearbody x.
    set (m := (n # 1)%Q) in *. clearbody m.
    split; lra.
Qed.

Lemma this_Qcminus (a b : Qc) : (this (a - b)%Qc == this a - this b)%Q.
Proof.
  unfold Qcminus, Qcplus, Qcopp, Q2Qc; simpl.
  rewrite !Qred_correct. reflexivity.
Qed.

Lemma round_half_away_cents (q : Qc) : rounds_to_cents (round_half_away 2 q) q.
Proof.
  unfold rounds_to_cents, round_half_away.
  change (10 ^ Z.of_nat 2) with 100.
  set (n := Qfloor (Qabs q * inject_Z 100 + (1 # 2))).
  split.
  - exists (Qc_sgn q * n). unfold dec. apply Q2Qc_eq_iff.
    symmetry. apply Qmake_Qdiv.
  - destruct (round_half_away_Q q) as [Hup Hdown]. fold n in Hup, Hdown.
    unfold Qcle. rewrite !this_Qcminus. unfold dec, Q2Qc; simpl this.
    rewrite !Qred_correct. by split.
Qed.

Lemma toFixed_in_range (q : Qc) :
  fixed_range q -> toFixed 2 (Fin q) = Fin (round_half_away 2 q).
Proof.
  intros Hq. unfold toFixed.
  replace (Qc_ltb (Q2Qc (Qabs q)) (Q2Qc (inject_Z (10 ^ 21)))) with true;
    [reflexivity|].
  symmetry. apply Qc_ltb_lt. unfold Qclt, Q2Qc; simpl this.
  by rewrite !Qred_correct.
Qed.


(** ** How batches compose *)

Lemma last_occurrence (l : list string) (s : string) :
  s ∈ l ->
  exists k, l !! k = Some s /\ forall j, (k < j)%nat -> l !! j <> Some s.
Proof.
  induction l as [|x l IH]; intros Hs; [by apply elem_of_nil in Hs|].
  destruct (decide (s ∈ l)) as [Hin|Hnotin].
  - destruct (IH Hin) as (k & Hk & Hlast). exists (S k). split; [exact Hk|].
    intros [|j] Hj; [lia|]. simpl. apply Hlast. lia.
  - apply elem_of_cons in Hs as [->|Hs]; [|done].
    exists 0%nat. split; [reflexivity|].
    intros [|j] Hj Hjs; [lia|]. simpl in Hjs.
    apply Hnotin. by apply list_elem_of_lookup_2 in Hjs.
Qed.

Lemma fetchBatchStocks_lookup_notin (net : Network) (l : list string)
    (s : string) :
  s ∉ l -> fetchBatchStocks net (val l) !! s = None.
Proof.
  intros Hs. unfold fetchBatchStocks, fetchBatchStocks_try, forEach; simpl.
  by rewrite forEach_from_lookup_notin.
Qed.

(** X9.  The object of a batch over [l1 ++ l2] is the object of the
    batch over [l1] overwritten by the object of the batch over [l2],
    the requests of [l2] seeing the network from position [length l1]
    on. *)
Theorem fetchBatchStocks_app (net : Network) (l1 l2 : list string) :
  fetchBatchStocks net (val (l1 ++ l2))
  = fetchBatchStocks (shift_net (length l1) net) (val l2)
    ∪ fetchBatchStocks net (val l1).
Proof.
  apply map_eq. intros s. rewrite lookup_union.
  destruct (decide (s ∈ l2)) as [Hin2|Hnotin2].
  - destruct (last_occurrence l2 s Hin2) as (k & Hk & Hlast).
    rewrite (fetchBatchStocks_lookup_last _ l2 k s Hk Hlast).
    rewrite (fetchBatchStocks_lookup_last net (l1 ++ l2) (length l1 + k) s).
    + unfold shift_net.
      by destruct (fetchBatchStocks net (val l1) !! s).
    + rewrite lookup_app_r by lia. rewrite <- Hk. f_equal. lia.
    + intros j Hj. rewrite lookup_app_r by lia. apply Hlast. lia.
  - rewrite (fetchBatchStocks_lookup_notin _ l2 s Hnotin2).
    rewrite (left_id_L None _).
    destruct (decide (s ∈ l1)) as [Hin1|Hnotin1].
    + destruct (last_occurrence l1 s Hin1) as (k & Hk & Hlast).
      rewrite (fetchBatchStocks_lookup_last net l1 k s Hk Hlast).
      apply fetchBatchStocks_lookup_last.
      * by apply lookup_app_l_Some.
      * intros j Hj Hjs. apply lookup_app_Some in Hjs as [Hjs|[_ Hjs]].
        -- by apply (Hlast j).
        -- apply Hnotin2. by apply list_elem_of_lookup_2 in Hjs.
    + rewrite !fetchBatchStocks_lookup_notin; [done..|].
      rewrite elem_of_app. tauto.
Qed.

Lemma fetchBatchStocks_lookup_independent (net : Network) (l : list string)
    (s : string) :
  position_independent net ->
  fetchBatchStocks net (val l) !! s
  = if decide (s ∈ l) then Some (entry_of (fetchStockData (net 0%nat s) s))
    else None.
Proof.
  intros Hnet. destruct (decide (s ∈ l)) as [Hin|Hnotin].
  - destruct (last_occurrence l s Hin) as (k & Hk & Hlast).
    rewrite (fetchBatchStocks_lookup_last net l k s Hk Hlast).
    by rewrite (Hnet k 0%nat s).
  - by apply fetchBatchStocks_lookup_notin.
Qed.

(** X10.  When the answer of the network for a symbol does not depend
    on the position of the request, the object of a batch depends only
    on which symbols are requested, not on their order or on how often
    each is repeated. *)
Theorem fetchBatchStocks_order_irrelevant (net : Network)
    (l1 l2 : list string) :
  position_independent net ->
  (forall s, s ∈ l1 <-> s ∈ l2) ->
  fetchBatchStocks net (val l1) = fetchBatchStocks net (val l2).
Proof.
  intros Hnet Hsame. apply map_eq. intros s.
  rewrite !fetchBatchStocks_lookup_independent by assumption.
  destruct (decide (s ∈ l1)) as [H1|H1], (decide (s ∈ l2)) as [H2|H2];
    try reflexivity; exfalso; apply Hsame in H1 || apply Hsame in H2; done.
Qed.

(** X11.  Every record stored in a batch object sits under its own
    symbol, and that symbol was requested. *)
Theorem fetchBatchStocks_record_key (net : Network) (l : list string)
    (s : string) (q : Quote.t) :
  fetchBatchStocks net (val l) !! s = Some (Stock q) ->
  Quote.symbol q = s /\ s ∈ l.
Proof.
  intros Hs.
  unfold fetchBatchStocks, fetchBatchStocks_try, forEach in Hs; simpl in Hs.
  apply forEach_from_lookup_inv in Hs as [Hs | (k & Hk & Hq)].
  - by rewrite lookup_empty in Hs.
  - split; [|by apply list_elem_of_lookup_2 in Hk].
    rewrite Nat.add_0_l, (batch_results_lookup net l k s Hk) in Hq.
    destruct (fetchStockData (net k s) s) as [q'|] eqn:Hfetch; [|discriminate].
    injection Hq as ->.
    apply fetchStockData_Some in Hfetch
      as (meta & series & price & prev & _ & _ & _ & ->).
    reflexivity.
Qed.

(** ** Indices and batches *)

(** X12.  The index snapshots are what one reads off a batch over the
    three index symbols on the same network: a snapshot for each index
    whose entry is a record, in declaration order, and nothing for an
    index whose entry is the error marker. *)
Theorem fetchIndices_from_batch (net : Network) :
  fetchIndices net
  = omap (fun index =>
            snapshot_of_entry index
              (fetchBatchStocks net (val (Index.symbol <$> indices))
                 !! Index.symbol index))
      indices.
Proof.
  unfold fetchIndices, indices. cbn [fmap list_fmap Index.symbol imap omap list_omap].
  rewrite (fetchBatchStocks_lookup_last net _ 0 "^NSEI");
    [|reflexivity | intros [|[|[|j]]] Hj; solve [lia | discriminate]].
  rewrite (fetchBatchStocks_lookup_last net _ 1 "^NSEBANK");
    [|reflexivity | intros [|[|[|j]]] Hj; solve [lia | discriminate]].
  rewrite (fetchBatchStocks_lookup_last net _ 2 "^BSESN");
    [|reflexivity | intros [|[|[|j]]] Hj; solve [lia | discriminate]].
  unfold index_snapshot; simpl.
  destruct (fetchStockData (net 0%nat "^NSEI") "^NSEI");
    destruct (fetchStockData (net 1%nat "^NSEBANK") "^NSEBANK");
    destruct (fetchStockData (net 2%nat "^BSESN") "^BSESN"); reflexivity.
Qed.

(** ** Searching *)

Lemma map_format_quote_present (qs : list YahooSearch.Quote) :
  map_completion format_quote (val <$> qs) = Normal (search_result_of <$> qs).
Proof.
  induction qs as [|q qs IH]; [reflexivity|].
  rewrite !fmap_cons. cbn [map_completion].
  unfold mbind, completion_bind at 2. by rewrite IH.
Qed.

Lemma map_format_quote_Normal (entries : list (js YahooSearch.Quote))
    (found : list SearchResult.t) :
  map_completion format_quote entries = Normal found ->
  exists qs, entries = val <$> qs /\ found = search_result_of <$> qs.
Proof.
  revert found. induction entries as [|entry entries IH]; intros found H.
  - injection H as <-. by exists [].
  - simpl in H. unfold mbind, completion_bind in *.
    destruct entry as [| |q]; simpl in H; try discriminate.
    destruct (map_completion format_quote entries) as [rest|e];
      [|discriminate].
    injection H as <-. destruct (IH rest eq_refl) as (qs & -> & ->).
    by exists (q :: qs).
Qed.

(** X13.  For a successful reply whose quotes are all present, the
    search returns one result per quote, in the order of the reply; each
    result carries the symbol of its quote; its type and currency are
    those of the quote unless missing or empty, in which case they are
    ["EQUITY"] and ["USD"]; its exchange is the exchange code, else the
    displayed exchange, else ["Unknown"]; and its name is the long name,
    else the short name, else the symbol of the quote, which may itself
    be missing. *)
Theorem searchStocksAPI_results (code : N) (qs : list YahooSearch.Quote)
    (query : string) :
  let found :=
    searchStocksAPI
      (Some {| YahooSearch.ok := true; YahooSearch.status := code;
               YahooSearch.json :=
                 Some (val {| YahooSearch.quotes := val (val <$> qs) |}) |})
      query in
  length found = length qs /\
  forall i q, qs !! i = Some q ->
    exists r,
      found !! i = Some r /\
      SearchResult.symbol r = YahooSearch.symbol q /\
      SearchResult.type r
      = match YahooSearch.quoteType q with
        | val (String c t) => String c t
        | _ => "EQUITY"
        end /\
      SearchResult.currency r
      = match YahooSearch.currency q with
        | val (String c t) => String c t
        | _ => "USD"
        end /\
      SearchResult.exchange r
      = match YahooSearch.exchange q, YahooSearch.exchDisp q with
        | val (String c code), _ => String c code
        | _, val (String c shown) => String c shown
        | _, _ => "Unknown"
        end /\
      SearchResult.name r
      = match YahooSearch.longname q, YahooSearch.shortname q with
        | val (String c long), _ => val (String c long)
        | _, val (String c short) => val (String c short)
        | _, _ => YahooSearch.symbol q
        end.
Proof.
  intros found.
  assert (Hfound : found = search_result_of <$> qs).
  { subst found. unfold searchStocksAPI, searchStocksAPI_try; simpl.
    unfold or_else; simpl. by rewrite map_format_quote_present. }
  rewrite Hfound. split; [apply length_fmap|].
  intros i q Hi. exists (search_result_of q).
  split; [by rewrite list_lookup_fmap, Hi|]. split; [reflexivity|].
  repeat split; simpl.
  - by destruct (YahooSearch.quoteType q) as [| |[|c t]].
  - by destruct (YahooSearch.currency q) as [| |[|c t]].
  - by destruct (YahooSearch.exchange q) as [| |[|c ex]],
               (YahooSearch.exchDisp q) as [| |[|c' shown]].
  - by destruct (YahooSearch.longname q) as [| |[|c long]],
               (YahooSearch.shortname q) as [| |[|c' short]].
Qed.

(** X14.  The search gives all or nothing: when it returns any result,
    the reply was successful with a JSON body whose quotes are all
    present, and there is a result for each of them.  So a failed
    request, a body without quotes and a reply with a single [null]
    quote among good ones all give the empty list. *)
Theorem searchStocksAPI_all_or_nothing
    (fetched : option YahooSearch.Response) (query : string) :
  searchStocksAPI fetched query <> [] ->
  exists code qs,
    fetched
    = Some {| YahooSearch.ok := true; YahooSearch.status := code;
              YahooSearch.json :=
                Some (val {| YahooSearch.quotes := val (val <$> qs) |}) |} /\
    searchStocksAPI fetched query = search_result_of <$> qs.
Proof.
  unfold searchStocksAPI, searchStocksAPI_try. intros Hfound.
  destruct fetched as [[[] code [[| |[quotes]]|]]|]; simpl in *; try done.
  destruct quotes as [| |entries]; simpl in *; try done.
  change (or_else (val entries) []) with entries in *.
  destruct (map_completion format_quote entries) as [found|e] eqn:Hmap;
    [|done].
  destruct (map_format_quote_Normal entries found Hmap) as (qs & -> & ->).
  by exists code, qs.
Qed.

(** ** The backend client *)

(** X16.  The backend variant of [fetchStockData] hands on the record of
    a successful reply as it is, missing fields staying missing, and
    returns [null] for every other reply. *)
Theorem BackendApi_fetchStockData_reply
    (fetched : option (BackendApi.Reply BackendStock.t)) (symbol : string) :
  BackendApi.fetchStockData fetched symbol
  = match fetched with
    | Some {| BackendApi.ok := true; BackendApi.json := Some (val stock) |} =>
        Some stock
    | _ => None
    end.
Proof.
  unfold BackendApi.fetchStockData, BackendApi.fetchStockData_try.
  destruct fetched as [[[] code [[| |[]]|]]|]; reflexivity.
Qed.

(** X17.  The backend variants of [searchStocksAPI] and [fetchIndices]
    return the [results], resp. [indices], array of a successful reply
    as it is, and the empty array for every other reply and for a reply
    without that array. *)
Theorem BackendApi_lists_reply {Item : Type}
    (found : option (BackendApi.Reply (BackendApi.SearchBody Item)))
    (fetched : option (BackendApi.Reply (BackendApi.IndicesBody Item)))
    (query : string) :
  BackendApi.searchStocksAPI found query
  = match found with
    | Some {| BackendApi.ok := true;
              BackendApi.json :=
                Some (val {| BackendApi.results := val items |}) |} => items
    | _ => []
    end /\
  BackendApi.fetchIndices fetched
  = match fetched with
    | Some {| BackendApi.ok := true;
              BackendApi.json :=
                Some (val {| BackendApi.indices := val items |}) |} => items
    | _ => []
    end.
Proof.
  split.
  - unfold BackendApi.searchStocksAPI, BackendApi.searchStocksAPI_try.
    destruct found as [[[] code [[| |[[| |items]]]|]]|]; reflexivity.
  - unfold BackendApi.fetchIndices, BackendApi.fetchIndices_try.
    destruct fetched as [[[] code [[| |[[| |items]]]|]]|]; reflexivity.
Qed.

(** ** Worked instances *)

Lemma chart_response_quote (symbol : string) (meta : Upstream.Meta)
    (series : Upstream.Series) (price prev : Qc) :
  upstream_price meta (val series) = val price ->
  upstream_previous_close meta = val prev ->
  fetchStockData (Some (chart_response (val meta) (val series))) symbol
  = Some (quote_of symbol meta series price prev).
Proof.
  intros Hprice Hprev. apply fetchStockData_Some.
  by exists meta, series, price, prev.
Qed.

Lemma price_source_witness :
  fetchStockData (Some (chart_response (val fallback_meta) (val sample_series)))
    "TCS.NS"
  = Some (quote_of "TCS.NS" fallback_meta sample_series
            (dec 100004 1000) (dec 90 1)) /\
  exists price,
    Quote.ltp (quote_of "TCS.NS" fallback_meta sample_series
                 (dec 100004 1000) (dec 90 1))
    = toFixed 2 (Fin price) /\
    exists samples,
      Upstream.close sample_series = val samples /\
      last samples = Some (val price).
Proof.
  assert (H : fetchStockData
                (Some (chart_response (val fallback_meta) (val sample_series)))
                "TCS.NS"
              = Some (quote_of "TCS.NS" fallback_meta sample_series
                        (dec 100004 1000) (dec 90 1)))
    by (by apply chart_response_quote).
  split; [exact H|].
  exact (price_source _ "TCS.NS" _ fallback_meta sample_series H eq_refl).
Defined.

Lemma previous_close_source_witness :
  fetchStockData (Some (chart_response (val fallback_meta) (val sample_series)))
    "TCS.NS"
  = Some (quote_of "TCS.NS" fallback_meta sample_series
            (dec 100004 1000) (dec 90 1)) /\
  exists prev,
    Quote.previousClose (quote_of "TCS.NS" fallback_meta sample_series
                           (dec 100004 1000) (dec 90 1))
    = toFixed 2 (Fin prev) /\
    Upstream.chartPreviousClose fallback_meta = val prev.
Proof.
  assert (H : fetchStockData
                (Some (chart_response (val fallback_meta) (val sample_series)))
                "TCS.NS"
              = Some (quote_of "TCS.NS" fallback_meta sample_series
                        (dec 100004 1000) (dec 90 1)))
    by (by apply chart_response_quote).
  split; [exact H|].
  exact (previous_close_source _ "TCS.NS" _ fallback_meta (val sample_series)
           H eq_refl).
Defined.

Lemma fetch_needs_previous_close_and_series_witness :
  upstream_first (Some seriesless_response)
  = Some (sample_meta (dec 100004 1000) (dec 90 1), undefined) /\
  fetchStockData (Some seriesless_response) "TCS.NS" = None.
Proof.
  split; [reflexivity|].
  exact (fetch_needs_previous_close_and_series (Some seriesless_response)
           "TCS.NS" (sample_meta (dec 100004 1000) (dec 90 1)) undefined
           eq_refl (or_intror eq_refl)).
Defined.


Lemma descriptive_fields_precedence_witness :
  fetchStockData (Some (chart_response (val fallback_meta) (val sample_series)))
    "TCS.NS"
  = Some (quote_of "TCS.NS" fallback_meta sample_series
            (dec 100004 1000) (dec 90 1)) /\
  Quote.symbol (quote_of "TCS.NS" fallback_meta sample_series
                  (dec 100004 1000) (dec 90 1)) = "TCS.NS" /\
  Quote.name (quote_of "TCS.NS" fallback_meta sample_series
                (dec 100004 1000) (dec 90 1)) = "Tata Consultancy" /\
  Quote.exchange (quote_of "TCS.NS" fallback_meta sample_series
                    (dec 100004 1000) (dec 90 1)) = "NSI".
Proof.
  assert (H : fetchStockData
                (Some (chart_response (val fallback_meta) (val sample_series)))
                "TCS.NS"
              = Some (quote_of "TCS.NS" fallback_meta sample_series
                        (dec 100004 1000) (dec 90 1)))
    by (by apply chart_response_quote).
  split; [exact H|].
  exact (descriptive_fields_precedence _ "TCS.NS" _ fallback_meta
           (val sample_series) H eq_refl).
Defined.

Lemma high_low_without_samples_witness :
  fetchStockData
    (Some (chart_response (val (sample_meta (dec 100004 1000) (dec 90 1)))
             (val null_series))) "TCS.NS"
  = Some (quote_of "TCS.NS" (sample_meta (dec 100004 1000) (dec 90 1))
            null_series (dec 100004 1000) (dec 90 1)) /\
  Quote.high (quote_of "TCS.NS" (sample_meta (dec 100004 1000) (dec 90 1))
                null_series (dec 100004 1000) (dec 90 1)) = NegInf /\
  Quote.low (quote_of "TCS.NS" (sample_meta (dec 100004 1000) (dec 90 1))
               null_series (dec 100004 1000) (dec 90 1)) = PosInf.
Proof.
  assert (H : fetchStockData
                (Some (chart_response
                         (val (sample_meta (dec 100004 1000) (dec 90 1)))
                         (val null_series))) "TCS.NS"
              = Some (quote_of "TCS.NS"
                        (sample_meta (dec 100004 1000) (dec 90 1))
                        null_series (dec 100004 1000) (dec 90 1)))
    by (by apply chart_response_quote).
  split; [exact H|].
  destruct (high_low_without_samples _ "TCS.NS" _
              (sample_meta (dec 100004 1000) (dec 90 1)) null_series
              H eq_refl) as [Hhigh Hlow].
  split.
  - apply (Hhigh [null; null]); [reflexivity|]. by repeat constructor.
  - apply (Hlow []); [reflexivity|]. constructor.
Defined.



Lemma fetchBatchStocks_order_irrelevant_witness :
  position_independent steady_net /\
  (forall s, s ∈ ["TCS.NS"; "BADSYM"] <-> s ∈ ["BADSYM"; "TCS.NS"; "BADSYM"]) /\
  fetchBatchStocks steady_net (val ["TCS.NS"; "BADSYM"])
  = fetchBatchStocks steady_net (val ["BADSYM"; "TCS.NS"; "BADSYM"]).
Proof.
  assert (Hnet : position_independent steady_net) by (intros i j s; reflexivity).
  assert (Hsame : forall s,
            s ∈ ["TCS.NS"; "BADSYM"] <-> s ∈ ["BADSYM"; "TCS.NS"; "BADSYM"]).
  { intros s. rewrite !elem_of_cons, elem_of_nil. tauto. }
  split; [exact Hnet|]. split; [exact Hsame|].
  exact (fetchBatchStocks_order_irrelevant steady_net _ _ Hnet Hsame).
Defined.

Lemma fetchBatchStocks_record_key_witness :
  fetchBatchStocks sample_net (val ["BADSYM"; "TCS.NS"]) !! "TCS.NS"
  = Some (Stock (sample_quote "TCS.NS")) /\
  Quote.symbol (sample_quote "TCS.NS") = "TCS.NS" /\
  "TCS.NS" ∈ ["BADSYM"; "TCS.NS"].
Proof.
  assert (H : fetchBatchStocks sample_net (val ["BADSYM"; "TCS.NS"]) !! "TCS.NS"
              = Some (Stock (sample_quote "TCS.NS"))).
  { rewrite (fetchBatchStocks_lookup_last sample_net _ 1 "TCS.NS");
      [|reflexivity | intros [|[|j]] Hj; solve [lia | discriminate]].
    by rewrite sample_net_quote. }
  split; [exact H|].
  exact (fetchBatchStocks_record_key sample_net _ "TCS.NS" _ H).
Defined.

Lemma searchStocksAPI_results_witness :
  [full_search_quote; bare_search_quote] !! 1%nat = Some bare_search_quote /\
  exists r,
    searchStocksAPI
      (Some (search_response (val [val full_search_quote; val bare_search_quote])))
      "tcs" !! 1%nat = Some r /\
    SearchResult.symbol r = val "INFY.NS" /\
    SearchResult.type r = "EQUITY" /\
    SearchResult.currency r = "USD" /\
    SearchResult.exchange r = "Unknown" /\
    SearchResult.name r = val "INFY.NS".
Proof.
  split; [reflexivity|].
  exact (proj2 (searchStocksAPI_results 200%N
                  [full_search_quote; bare_search_quote] "tcs")
           1%nat bare_search_quote eq_refl).
Defined.

Lemma searchStocksAPI_all_or_nothing_witness :
  searchStocksAPI
    (Some (search_response (val [val full_search_quote; val bare_search_quote])))
    "tcs" <> [] /\
  searchStocksAPI
    (Some (search_response (val [val full_search_quote; null]))) "tcs" = [] /\
  exists code qs,
    Some (search_response (val [val full_search_quote; val bare_search_quote]))
    = Some {| YahooSearch.ok := true; YahooSearch.status := code;
              YahooSearch.json :=
                Some (val {| YahooSearch.quotes := val (val <$> qs) |}) |} /\
    searchStocksAPI
      (Some (search_response (val [val full_search_quote; val bare_search_quote])))
      "tcs" = search_result_of <$> qs.
Proof.
  assert (H : searchStocksAPI
                (Some (search_response
                         (val [val full_search_quote; val bare_search_quote])))
                "tcs" <> []) by discriminate.
  split; [exact H|]. split; [reflexivity|].
  exact (searchStocksAPI_all_or_nothing _ "tcs" H).
Defined.

(** ** Signs *)

Lemma round_half_away_sign_Q (q : Q) :
  let n := Qfloor (Qabs q * inject_Z 100 + (1 # 2)) in
  let r := (inject_Z (Z.sgn (Qnum q) * n) / inject_Z 100)%Q in
  (0 <= q -> 0 <= r)%Q /\ (q <= 0 -> r <= 0)%Q.
Proof.
  intros n r.
  assert (Hn : 0 <= n).
  { change 0 with (Qfloor 0). apply Qfloor_resp_le.
    pose proof (Qabs_nonneg q) as Ha.
    assert (Hs : (0 <= Qabs q * inject_Z 100)%Q)
      by (apply Qmult_le_0_compat; [exact Ha | discriminate]).
    lra. }
  subst r. unfold Qdiv. change (/ inject_Z 100)%Q with (1 # 100)%Q.
  assert (Hpos : forall k, 0 <= k -> (0 <= inject_Z k * (1 # 100))%Q).
  { intros k Hk. apply Qmult_le_0_compat; [|discriminate].
    change 0%Q with (inject_Z 0). by rewrite <- Zle_Qle. }
  destruct q as [[|num|num] den]; simpl Z.sgn.
  - rewrite Z.mul_0_l. split; intros _; vm_compute; discriminate.
  - rewrite Z.mul_1_l. split; [intros _; by apply Hpos|].
    intros Hq. exfalso. unfold Qle in Hq; simpl in Hq. lia.
  - replace (-1 * n) with (- n) by lia. rewrite inject_Z_opp. split.
    + intros Hq. exfalso. unfold Qle in Hq; simpl in Hq. lia.
    + intros _. pose proof (Hpos n Hn). lra.
Qed.

Lemma round_half_away_sign (q : Qc) :
  ((0 <= q -> 0 <= round_half_away 2 q) /\
   (q <= 0 -> round_half_away 2 q <= 0))%Qc.
Proof.
  destruct (round_half_away_Q q) as [_ _].
  destruct (round_half_away_sign_Q q) as [Hup Hdown].
  unfold round_half_away, Qcle, Q2Qc; simpl this.
  change (10 ^ Z.of_nat 2) with 100.
  rewrite !Qred_correct. change (Qred 0) with 0%Q. by split.
Qed.

Lemma toFixed_sign (q : Qc) :
  exists r, toFixed 2 (Fin q) = Fin r /\
    ((0 <= q -> 0 <= r) /\ (q <= 0 -> r <= 0))%Qc.
Proof.
  unfold toFixed. destruct (Qc_ltb _ _).
  - exists (round_half_away 2 q). split; [reflexivity|].
    apply round_half_away_sign.
  - exists q. by split.
Qed.

Lemma Qcinv_nonneg (p : Qc) : (0 < p -> 0 <= / p)%Qc.
Proof.
  unfold Qclt, Qcle, Qcinv, Q2Qc; simpl this. change (Qred 0) with 0%Q.
  intros Hp. rewrite Qred_correct. apply Qinv_le_0_compat. by apply Qlt_le_weak.
Qed.

Lemma percent_value_sign (d prev : Qc) :
  (0 < prev)%Qc ->
  ((0 <= d -> 0 <= d / prev * Qc_of_Z 100) /\
   (d <= 0 -> d / prev * Qc_of_Z 100 <= 0))%Qc.
Proof.
  intros Hprev. pose proof (Qcinv_nonneg prev Hprev) as Hinv.
  assert (H100 : (0 <= Qc_of_Z 100)%Qc) by discriminate.
  unfold Qcdiv. split; intros Hd.
  - replace 0%Qc with (0 * / prev * Qc_of_Z 100)%Qc by ring.
    apply Qcmult_le_compat_r; [|exact H100].
    by apply Qcmult_le_compat_r.
  - apply Qcle_trans with (0 * / prev * Qc_of_Z 100)%Qc.
    + apply Qcmult_le_compat_r; [|exact H100].
      by apply Qcmult_le_compat_r.
    + replace (0 * / prev * Qc_of_Z 100)%Qc with 0%Qc by ring.
      apply Qcle_refl.
Qed.


